(** * parse-video-py: the Twitter/X parser ([src/parser/twitter.py])

    A shallow embedding of the [Twitter] parser class and the properties of
    its media-resolution pipeline: identifier extraction, short-link
    resolution, token derivation and the tiered media selection.

    Conventions of the embedding.
    - A Python [str] is a [string], one [ascii] per character: the model is
      that of ASCII strings, which every URL and every identifier is.  On
      them the pattern class [\d] is exactly ['0'..'9'] and [float] strips
      the blanks of ASCII.  The two messages of the parser are Chinese text,
      kept as the bytes of their UTF-8 encoding; no function looks inside.
    - The JSON response document is a record whose fields are optional: a
      key the document lacks is [None], and [d.get(k, default)] is
      [get field default].  A key that is present carries the JSON type the
      parser uses it at (string, integer, list, object).
    - A Python [float] is an IEEE 754 binary64 number, a [spec_float] of the
      standard library at precision 53; [float(s)] rounds the decimal to the
      nearest float, and [str(x)] is the shortest decimal that reads back.
    - A raised exception is the [Raise] outcome of [result].  A coroutine is
      a tree of [Http.io]: it returns, raises, or awaits a GET whose answer,
      a response or an exception of the client, comes from the network. *)

From Stdlib Require Import String Ascii List ZArith Bool Lia.
From Stdlib Require Import QArith Qround SpecFloat DecimalString.
Import ListNotations.

Open Scope string_scope.
Open Scope Z_scope.

(** ** Python primitives *)

Module Py.

(** Exceptions the parser raises or lets through. *)
Inductive exn : Type :=
| Exception (msg : string)
| ValueError (msg : string)
| HTTPStatusError (status : Z)
| RequestError (msg : string)
| JSONDecodeError.

Inductive result (A : Type) : Type :=
| Ok (a : A)
| Raise (e : exn).
Arguments Ok {A} a.
Arguments Raise {A} e.

(** [d.get(key, default)] where the key may be missing. *)
Definition get {A : Type} (field : option A) (default : A) : A :=
  match field with
  | Some v => v
  | None => default
  end.

(** Truth value of a [str]: the empty string is falsy. *)
Definition truthy (s : string) : bool :=
  match s with
  | EmptyString => false
  | String _ _ => true
  end.

(** Truth value of a [list]: the empty list is falsy. *)
Definition truthy_list {A : Type} (l : list A) : bool :=
  match l with
  | [] => false
  | _ :: _ => true
  end.

End Py.
Import Py.

(** ** The response document of the syndication endpoint *)

Module Doc.

(** One element of [video_info.variants] or of [video.variants]. *)
Record Variant : Type := mkVariant {
  content_type : option string;
  bitrate : option Z;
  url : option string
}.

Record VideoInfoField : Type := mkVideoInfoField {
  variants : option (list Variant)
}.

(** One element of [mediaDetails]. *)
Record Media : Type := mkMedia {
  type : option string;
  media_url_https : option string;
  video_info : option VideoInfoField
}.

(** The top-level [video] object. *)
Record TopVideo : Type := mkTopVideo {
  poster : option string;
  top_variants : option (list Variant)
}.

Record User : Type := mkUser {
  name : option string;
  screen_name : option string;
  profile_image_url_https : option string;
  id_str : option string
}.

Record Document : Type := mkDocument {
  user : option User;
  text : option string;
  mediaDetails : option (list Media);
  video : option TopVideo
}.

(** The empty dict [{}] at each object type. *)
Definition empty_video_info : VideoInfoField := mkVideoInfoField None.
Definition empty_top_video : TopVideo := mkTopVideo None None.
Definition empty_user : User := mkUser None None None None.

End Doc.

(** ** Result types of [parser/base.py] *)

Module Base.

(** Modelled from the spec: [ImgInfo], [VideoAuthor] and [VideoInfo] are
    declared in [parser/base.py], which is not among the sources; the
    fields are the keyword arguments the parser constructs them with. *)
Record ImgInfo : Type := mkImgInfo { img_url : string }.

Record VideoAuthor : Type := mkVideoAuthor {
  uid : string;
  author_name : string;
  avatar : string
}.

Record VideoInfo : Type := mkVideoInfo {
  video_url : string;
  cover_url : string;
  title : string;
  images : list ImgInfo;
  author : VideoAuthor
}.

End Base.

(** ** Media selection (the body of [parse_video_id] after the fetch) *)

Module Selector.
Import Doc Base.

(** The local variables [video_url], [cover_url] and [images]. *)
Record locals : Type := mkLocals {
  l_video_url : string;
  l_cover_url : string;
  l_images : list ImgInfo
}.

Definition init : locals := mkLocals "" "" [].

Definition no_media_message : string := "该推文中没有找到视频或图片".

(** One iteration of the loop over variants (lines 77-85 and 94-102); the
    loop state is the pair [(max_bitrate, video_url)]. *)
Definition pick_variant (st : Z * string) (variant : Variant) : Z * string :=
  let '(max_bitrate, video_url) := st in
  let content_type := get (content_type variant) "" in
  if negb (String.eqb content_type "video/mp4") then st
  else
    let bitrate := get (bitrate variant) 0 in
    let url := get (url variant) "" in
    if (bitrate >? max_bitrate) || negb (truthy video_url)
    then (bitrate, url)
    else st.

(** [max_bitrate = 0] followed by the loop; the result is [video_url]. *)
Definition scan_variants (variants : list Variant) (video_url : string) : string :=
  snd (fold_left pick_variant variants (0, video_url)).

Definition is_video_type (media_type : string) : bool :=
  String.eqb media_type "video" || String.eqb media_type "animated_gif".

(** The loop over [media_details] with its [break] (lines 65-86). *)
Fixpoint scan_media_details (media_details : list Media) (st : locals) : locals :=
  match media_details with
  | [] => st
  | media :: rest =>
      let media_type := get (type media) "" in
      if is_video_type media_type then
        let cover_url := get (media_url_https media) "" in
        let video_info := get (video_info media) empty_video_info in
        let variants := get (variants video_info) [] in
        mkLocals (scan_variants variants (l_video_url st)) cover_url (l_images st)
      else scan_media_details rest st
  end.

(** Lines 63-86. *)
Definition tier1 (json_data : Document) (st : locals) : locals :=
  let media_details := get (mediaDetails json_data) [] in
  if truthy_list media_details then scan_media_details media_details st else st.

(** Lines 89-102. *)
Definition tier2 (json_data : Document) (st : locals) : locals :=
  if negb (truthy (l_video_url st)) then
    let top_video_variants :=
      get (top_variants (get (video json_data) empty_top_video)) [] in
    if truthy_list top_video_variants then
      let cover_url := get (poster (get (video json_data) empty_top_video)) "" in
      mkLocals (scan_variants top_video_variants (l_video_url st)) cover_url (l_images st)
    else st
  else st.

(** [media.get("type") == "photo"]: a missing type is [None], which is
    not equal to any string. *)
Definition is_photo (media_type : option string) : bool :=
  match media_type with
  | Some t => String.eqb t "photo"
  | None => false
  end.

(** The loop of lines 106-110, appending to [images]. *)
Fixpoint collect_photos (media_details : list Media) (images : list ImgInfo)
  : list ImgInfo :=
  match media_details with
  | [] => images
  | media :: rest =>
      if is_photo (type media) then
        let image_url := get (media_url_https media) "" in
        if truthy image_url
        then collect_photos rest (images ++ [mkImgInfo image_url])
        else collect_photos rest images
      else collect_photos rest images
  end.

(** Lines 105-114. *)
Definition tier3 (json_data : Document) (st : locals) : locals :=
  let media_details := get (mediaDetails json_data) [] in
  if negb (truthy (l_video_url st)) && truthy_list media_details then
    let images := collect_photos media_details (l_images st) in
    match images with
    | first :: _ => mkLocals (l_video_url st) (img_url first) images
    | [] => mkLocals (l_video_url st) (l_cover_url st) images
    end
  else st.

Definition select_media (json_data : Document) : locals :=
  tier3 json_data (tier2 json_data (tier1 json_data init)).

(** Lines 47-133: from the decoded document to the [VideoInfo]. *)
Definition parse_json (json_data : Document) : result VideoInfo :=
  let user_data := get (user json_data) empty_user in
  let author_name := get (name user_data) "" in
  let author_screen_name := get (screen_name user_data) "" in
  let author_avatar := get (profile_image_url_https user_data) "" in
  let author_id := get (id_str user_data) "" in
  let title := get (text json_data) "" in
  let st := select_media json_data in
  if negb (truthy (l_video_url st)) && negb (truthy_list (l_images st))
  then Raise (Exception no_media_message)
  else
    let display_name := if truthy author_name then author_name else author_screen_name in
    Ok (mkVideoInfo (l_video_url st) (l_cover_url st) title (l_images st)
          (mkVideoAuthor author_id display_name author_avatar)).

End Selector.

(** ** Strings *)

Module Str.

(** [s.startswith(l)], giving what follows the prefix. *)
Fixpoint strip_prefix (l s : string) : option string :=
  match l with
  | EmptyString => Some s
  | String c l' =>
      match s with
      | EmptyString => None
      | String d s' => if Ascii.eqb c d then strip_prefix l' s' else None
      end
  end.

(** [sub in s]. *)
Fixpoint contains (sub s : string) : bool :=
  match strip_prefix sub s with
  | Some _ => true
  | None =>
      match s with
      | EmptyString => false
      | String _ s' => contains sub s'
      end
  end.

(** Every character of [s] satisfies [p]. *)
Fixpoint all_chars (p : ascii -> bool) (s : string) : bool :=
  match s with
  | EmptyString => true
  | String c s' => p c && all_chars p s'
  end.

(** The first [n] characters of [s]. *)
Fixpoint take (n : nat) (s : string) : string :=
  match n, s with
  | S n', String c s' => String c (take n' s')
  | _, _ => EmptyString
  end.

(** [s.replace(c, "")] for a one-character [c]. *)
Fixpoint remove_char (c : ascii) (s : string) : string :=
  match s with
  | EmptyString => EmptyString
  | String d s' => if Ascii.eqb d c then remove_char c s' else String d (remove_char c s')
  end.

Definition ascii_lower (c : ascii) : ascii :=
  let n := nat_of_ascii c in
  if (65 <=? n)%nat && (n <=? 90)%nat then ascii_of_nat (n + 32) else c.

(** [s.lower()] *)
Fixpoint lower (s : string) : string :=
  match s with
  | EmptyString => EmptyString
  | String c s' => String (ascii_lower c) (lower s')
  end.

Definition is_digit (c : ascii) : bool :=
  (48 <=? Z.of_nat (nat_of_ascii c)) && (Z.of_nat (nat_of_ascii c) <=? 57).

Definition not_slash (c : ascii) : bool := negb (Ascii.eqb c "/").

(** The first character of [s] satisfies [p]. *)
Definition head_is (p : ascii -> bool) (s : string) : bool :=
  match s with
  | String c _ => p c
  | EmptyString => false
  end.

(** [s.endswith(l)] *)
Fixpoint ends_with (s l : string) : bool :=
  String.eqb s l
  || match s with
     | EmptyString => false
     | String _ s' => ends_with s' l
     end.

End Str.

(** ** The fragment of [re] the parser uses *)

Module Re.
Import Str.

(** Patterns: literals, alternation, the greedy optional [r?], the greedy
    repetition [c+] of a character class, and the capturing group. *)
Inductive regex : Type :=
| Lit (l : string)
| Cat (r1 r2 : regex)
| Alt (r1 r2 : regex)
| Opt (r : regex)
| Plus (p : ascii -> bool)
| Group (r : regex).

(** Greedy [c+]: the longest run first, then shorter ones on backtracking. *)
Fixpoint plus_from {R : Type} (p : ascii -> bool) (s : string)
    (k : string -> option R) : option R :=
  match s with
  | EmptyString => None
  | String c s' =>
      if p c then
        match plus_from p s' k with
        | Some r => Some r
        | None => k s'
        end
      else None
  end.

(** What a group that started at [s] and ended at [s'] captured. *)
Definition consumed (s s' : string) : string :=
  take (String.length s - String.length s') s.

(** The backtracking matcher: [run r s g k] matches [r] at the head of [s]
    and passes the rest of the input and the capture to [k]; alternatives
    are tried in the order of the [re] module. *)
Fixpoint run {R : Type} (r : regex) (s : string) (g : option string)
    (k : string -> option string -> option R) : option R :=
  match r with
  | Lit l =>
      match strip_prefix l s with
      | Some s' => k s' g
      | None => None
      end
  | Cat r1 r2 => run r1 s g (fun s' g' => run r2 s' g' k)
  | Alt r1 r2 =>
      match run r1 s g k with
      | Some a => Some a
      | None => run r2 s g k
      end
  | Opt r1 =>
      match run r1 s g k with
      | Some a => Some a
      | None => k s g
      end
  | Plus p => plus_from p s (fun s' => k s' g)
  | Group r1 => run r1 s g (fun s' _ => k s' (Some (consumed s s')))
  end.

(** A match object: what group 1 captured, if it took part. *)
Definition match_obj : Type := option string.

(** [re.match]: a match at the start of [s]. *)
Definition match_at (r : regex) (s : string) : option match_obj :=
  run r s None (fun _ g => Some g).

(** [re.search]: the leftmost position where the pattern matches. *)
Fixpoint search (r : regex) (s : string) : option match_obj :=
  match match_at r s with
  | Some m => Some m
  | None =>
      match s with
      | EmptyString => None
      | String _ s' => search r s'
      end
  end.

(** [m.group(1)]; in the parser's pattern the group is not optional. *)
Definition group1 (m : match_obj) : string := get m "".

End Re.

(** ** Identifier extraction *)

Module Extractor.
Import Str Re.

(** [(?:twitter\.com|x\.com)/[^/]+/status(?:es)?/(\d+)] *)
Definition pattern : regex :=
  Cat (Alt (Lit "twitter.com") (Lit "x.com"))
    (Cat (Lit "/")
      (Cat (Plus not_slash)
        (Cat (Lit "/status")
          (Cat (Opt (Lit "es"))
            (Cat (Lit "/") (Group (Plus is_digit))))))).

Definition invalid_url_message : string := "无法从 URL 中提取推文 ID: ".

Definition _extract_tweet_id (share_url : string) : result string :=
  match search pattern share_url with
  | None => Raise (ValueError (invalid_url_message ++ share_url))
  | Some m => Ok (group1 m)
  end.

(** The matcher on [pattern], one part of the pattern at a time: what
    must follow the status segment, the user segment and the domain. *)
Definition id_tail (s : string) : option match_obj :=
  match strip_prefix "/" s with
  | Some s' => plus_from is_digit s' (fun rest => Some (Some (consumed s' rest)))
  | None => None
  end.

Definition after_status (s : string) : option match_obj :=
  match
    match strip_prefix "es" s with
    | Some s' => id_tail s'
    | None => None
    end
  with
  | Some m => Some m
  | None => id_tail s
  end.

Definition after_user (s : string) : option match_obj :=
  match strip_prefix "/status" s with
  | Some s' => after_status s'
  | None => None
  end.

Definition after_domain (s : string) : option match_obj :=
  match strip_prefix "/" s with
  | Some s' => plus_from not_slash s' after_user
  | None => None
  end.

(** Somewhere in [s], [/status/] or [/statuses/] is followed by a digit. *)
Fixpoint has_status_id (s : string) : bool :=
  match strip_prefix "/status/" s with
  | Some rest => head_is is_digit rest
  | None => false
  end
  || match strip_prefix "/statuses/" s with
     | Some rest => head_is is_digit rest
     | None => false
     end
  || match s with
     | EmptyString => false
     | String _ s' => has_status_id s'
     end.

(** The two domains the pattern names. *)
Definition is_domain (dom : string) : Prop := dom = "twitter.com" \/ dom = "x.com".

End Extractor.


(** ** Python's [float]: IEEE 754 binary64 *)

Module Float.
Import Str.

Definition prec : Z := 53.
Definition emax : Z := 1024.

(** A Python [float] is a binary64 number. *)
Definition float : Type := spec_float.

Definition div (x y : float) : float := SFdiv prec emax x y.
Definition mul (x y : float) : float := SFmul prec emax x y.

(** *** [float(s)] *)

Definition is_space (c : ascii) : bool :=
  let n := nat_of_ascii c in
  (n =? 32)%nat || ((9 <=? n)%nat && (n <=? 13)%nat).

Fixpoint lstrip (s : string) : string :=
  match s with
  | EmptyString => EmptyString
  | String c s' => if is_space c then lstrip s' else s
  end.

Fixpoint rstrip (s : string) : string :=
  match s with
  | EmptyString => EmptyString
  | String c s' =>
      match rstrip s' with
      | EmptyString => if is_space c then EmptyString else String c EmptyString
      | t => String c t
      end
  end.

Definition strip (s : string) : string := rstrip (lstrip s).

Definition is_underscore (c : ascii) : bool := Ascii.eqb c "_".

(** Underscores may only stand between two digits; they are dropped.
    [prev] is the character before [s], if any. *)
Fixpoint drop_underscores (prev : option ascii) (s : string) : option string :=
  match s with
  | EmptyString =>
      match prev with
      | Some p => if is_underscore p then None else Some EmptyString
      | None => Some EmptyString
      end
  | String c s' =>
      if is_underscore c then
        match prev with
        | Some p => if is_digit p then drop_underscores (Some c) s' else None
        | None => None
        end
      else
        match prev with
        | Some p =>
            if is_underscore p && negb (is_digit c) then None
            else option_map (String c) (drop_underscores (Some c) s')
        | None => option_map (String c) (drop_underscores (Some c) s')
        end
  end.

(** The longest prefix of digits, and what follows it. *)
Fixpoint span_digits (s : string) : string * string :=
  match s with
  | EmptyString => (EmptyString, EmptyString)
  | String c s' =>
      if is_digit c then
        let '(ds, rest) := span_digits s' in (String c ds, rest)
      else (EmptyString, s)
  end.

Definition digit_value (c : ascii) : Z := Z.of_nat (nat_of_ascii c) - 48.

Fixpoint digits_value_from (acc : Z) (ds : string) : Z :=
  match ds with
  | EmptyString => acc
  | String c ds' => digits_value_from (10 * acc + digit_value c) ds'
  end.

(** The integer a string of digits denotes ([0] for the empty string). *)
Definition digits_value (ds : string) : Z := digits_value_from 0 ds.

Definition parse_sign (s : string) : bool * string :=
  match s with
  | String c s' =>
      if Ascii.eqb c "-" then (true, s')
      else if Ascii.eqb c "+" then (false, s')
      else (false, s)
  | EmptyString => (false, s)
  end.

(** An unsigned literal: [inf], [nan], or the number [mant * 10^exp10]. *)
Inductive literal : Type :=
| LInf
| LNan
| LNum (mant exp10 : Z).

Definition parse_exponent (s : string) : option Z :=
  let '(neg, s1) := parse_sign s in
  let '(ds, rest) := span_digits s1 in
  match ds, rest with
  | String _ _, EmptyString => Some (if neg then - digits_value ds else digits_value ds)
  | _, _ => None
  end.

Definition parse_literal (s : string) : option literal :=
  let ls := lower s in
  if String.eqb ls "inf" || String.eqb ls "infinity" then Some LInf
  else if String.eqb ls "nan" then Some LNan
  else
    let '(ip, r1) := span_digits s in
    let '(fp, r2) :=
      match r1 with
      | String c r =>
          if Ascii.eqb c "." then span_digits r else (EmptyString, r1)
      | EmptyString => (EmptyString, r1)
      end in
    let mant := digits_value (ip ++ fp) in
    let frac := Z.of_nat (String.length fp) in
    match (ip ++ fp)%string with
    | EmptyString => None
    | String _ _ =>
        match r2 with
        | EmptyString => Some (LNum mant (- frac))
        | String c r3 =>
            if Ascii.eqb c "e" || Ascii.eqb c "E" then
              match parse_exponent r3 with
              | Some e => Some (LNum mant (e - frac))
              | None => None
              end
            else None
        end
    end.

(** The binary64 number nearest to [mant * 10^exp10] (ties to even), with
    sign [neg]: the quotient of two integers, rounded once. *)
Definition of_decimal (neg : bool) (mant exp10 : Z) : float :=
  match mant * 10 ^ Z.max exp10 0 with
  | Zpos num =>
      match 10 ^ Z.max (- exp10) 0 with
      | Zpos den => div (S754_finite neg num 0) (S754_finite false den 0)
      | _ => S754_nan
      end
  | _ => S754_zero neg
  end.

Definition of_literal (neg : bool) (l : literal) : float :=
  match l with
  | LInf => S754_infinity neg
  | LNan => S754_nan
  | LNum mant exp10 => of_decimal neg mant exp10
  end.

Definition float_message : string := "could not convert string to float: ".

Definition hex_digit (n : nat) : ascii :=
  if (n <? 10)%nat then ascii_of_nat (48 + n) else ascii_of_nat (87 + n).

Definition backslash : ascii := ascii_of_nat 92.
Definition single_quote : ascii := ascii_of_nat 39.
Definition double_quote : ascii := ascii_of_nat 34.

(** One character inside the quotes of [repr(s)]. *)
Definition escape_char (quote c : ascii) : string :=
  let n := nat_of_ascii c in
  if Ascii.eqb c quote || Ascii.eqb c backslash then String backslash (String c "")
  else if (n =? 9)%nat then String backslash "t"
  else if (n =? 10)%nat then String backslash "n"
  else if (n =? 13)%nat then String backslash "r"
  else if (n <? 32)%nat || (127 <=? n)%nat then
    String backslash
      (String "x" (String (hex_digit (n / 16)) (String (hex_digit (n mod 16)) "")))
  else String c "".

Fixpoint escape (quote : ascii) (s : string) : string :=
  match s with
  | EmptyString => EmptyString
  | String c s' => escape_char quote c ++ escape quote s'
  end.

Definition has_char (c : ascii) (s : string) : bool :=
  negb (all_chars (fun d => negb (Ascii.eqb d c)) s).

(** [repr(s)] of a [str]: single quotes, unless the string holds a single
    quote and no double quote. *)
Definition repr_str (s : string) : string :=
  let quote : ascii :=
    if has_char single_quote s && negb (has_char double_quote s)
    then double_quote else single_quote in
  String quote (escape quote s ++ String quote "").

(** [float(s)] for a [str]. *)
Definition of_string (s : string) : result float :=
  match drop_underscores None (strip s) with
  | None => Raise (ValueError (float_message ++ repr_str s))
  | Some t =>
      let '(neg, body) := parse_sign t in
      match parse_literal body with
      | Some l => Ok (of_literal neg l)
      | None => Raise (ValueError (float_message ++ repr_str s))
      end
  end.

(** The literal [1e15] and [math.pi] ([0x1.921fb54442d18p+1]). *)
Definition float_1e15 : float := of_decimal false 1 15.
Definition math_pi : float := S754_finite false 7074237752028440 (-51).

(** *** [str(x)], which is [repr(x)] *)

Definition Qpow (b : Z) (e : Z) : Q := Qpower (inject_Z b) e.

(** The value of the positive finite float [m * 2^e]. *)
Definition value (m : positive) (e : Z) : Q := (inject_Z (Zpos m) * Qpow 2 e)%Q.

(** Half-way to the next float above, and to the next float below: the
    gap below is half as wide when [m] is the least mantissa of a binade. *)
Definition upper_bound (m : positive) (e : Z) : Q :=
  (inject_Z (2 * Zpos m + 1) * Qpow 2 (e - 1))%Q.

Definition lower_bound (m : positive) (e : Z) : Q :=
  if (Zpos m =? 2 ^ (prec - 1)) && (SpecFloat.emin prec emax <? e)
  then (inject_Z (4 * Zpos m - 1) * Qpow 2 (e - 2))%Q
  else (inject_Z (2 * Zpos m - 1) * Qpow 2 (e - 1))%Q.

(** Does the decimal [c] read back as [m * 2^e]?  The ends of the interval
    round to the float whose mantissa is even. *)
Definition reads_back (m : positive) (e : Z) (c : Q) : bool :=
  if Z.even (Zpos m)
  then Qle_bool (lower_bound m e) c && Qle_bool c (upper_bound m e)
  else negb (Qle_bool c (lower_bound m e)) && negb (Qle_bool (upper_bound m e) c).

(** The position of the decimal point: the least [d] with [x < 10^d],
    searched downwards from [d]. *)
Fixpoint find_decpt (fuel : nat) (d : Z) (x : Q) : Z :=
  match fuel with
  | O => d
  | S fuel' => if Qle_bool (Qpow 10 (d - 1)) x then d else find_decpt fuel' (d - 1) x
  end.

Definition decpt_of (x : Q) : Z := find_decpt 640 309 x.

(** The nearest multiple of [10^(d-n)] below and above [x]; of those that
    read back, the one closer to [x], an even last digit breaking a tie. *)
Definition candidate (m : positive) (e : Z) (d n : Z) : option Z :=
  let x := value m e in
  let u := Qpow 10 (d - n) in
  let D := Qfloor (x / u)%Q in
  let below := (inject_Z D * u)%Q in
  let above := (inject_Z (D + 1) * u)%Q in
  match reads_back m e below, reads_back m e above with
  | true, true =>
      match (x - below ?= above - x)%Q with
      | Lt => Some D
      | Gt => Some (D + 1)
      | Eq => Some (if Z.even D then D else D + 1)
      end
  | true, false => Some D
  | false, true => Some (D + 1)
  | false, false => None
  end.

(** The [n]-digit decimal nearest to [x] (ties to even). *)
Definition nearest (m : positive) (e : Z) (d n : Z) : Z :=
  let x := value m e in
  let u := Qpow 10 (d - n) in
  let D := Qfloor (x / u)%Q in
  match (x - inject_Z D * u ?= inject_Z (D + 1) * u - x)%Q with
  | Lt => D
  | Gt => D + 1
  | Eq => if Z.even D then D else D + 1
  end.

(** The fewest digits that read back: [n], [n+1], ... up to 17, which
    always do. *)
Fixpoint shortest (more : nat) (m : positive) (e : Z) (d n : Z) : Z :=
  match more with
  | O => nearest m e d n
  | S more' =>
      match candidate m e d n with
      | Some D => D * 10 ^ Z.of_nat more
      | None => shortest more' m e d (n + 1)
      end
  end.

Definition decimal (n : Z) : string := NilZero.string_of_uint (N.to_uint (Z.to_N n)).

Fixpoint zeros (n : nat) : string :=
  match n with
  | O => EmptyString
  | S n' => String "0" (zeros n')
  end.

(** Dropping the zeros at the end of a digit string. *)
Fixpoint strip_zeros (ds : string) : string :=
  match ds with
  | EmptyString => EmptyString
  | String c ds' =>
      match strip_zeros ds' with
      | EmptyString => if Ascii.eqb c "0" then EmptyString else String c EmptyString
      | t => String c t
      end
  end.

Fixpoint drop (n : nat) (s : string) : string :=
  match n, s with
  | S n', String _ s' => drop n' s'
  | _, _ => s
  end.

(** The digits of the shortest decimal that reads back as [m * 2^e], and
    the position of its decimal point: the decimal is [0.digits * 10^decpt]. *)
Definition shortest_digits (m : positive) (e : Z) : string * Z :=
  let d := decpt_of (value m e) in
  let D17 := shortest 16 m e d 1 in
  if D17 =? 10 ^ 17 then ("1", d + 1) else (strip_zeros (decimal D17), d).

Definition pad2 (s : string) : string :=
  match s with
  | String c EmptyString => String "0" s
  | _ => s
  end.

(** The layout of [repr]: exponent notation outside [1e-4 <= x < 1e16]. *)
Definition layout (digits : string) (decpt : Z) : string :=
  let n := Z.of_nat (String.length digits) in
  if (decpt <=? -4) || (16 <? decpt) then
    let mant :=
      match digits with
      | String c (String _ _ as rest) => String c ("." ++ rest)
      | _ => digits
      end in
    let ex := decpt - 1 in
    mant ++ "e" ++ (if ex <? 0 then "-" else "+") ++ pad2 (decimal (Z.abs ex))
  else if decpt <=? 0 then "0." ++ zeros (Z.to_nat (- decpt)) ++ digits
  else if decpt <? n then
    take (Z.to_nat decpt) digits ++ "." ++ drop (Z.to_nat decpt) digits
  else digits ++ zeros (Z.to_nat (decpt - n)) ++ ".0".

Definition sign_prefix (neg : bool) : string := if neg then "-" else "".

Definition repr (x : float) : string :=
  match x with
  | S754_nan => "nan"
  | S754_infinity neg => sign_prefix neg ++ "inf"
  | S754_zero neg => sign_prefix neg ++ "0.0"
  | S754_finite neg m e =>
      let '(digits, decpt) := shortest_digits m e in
      sign_prefix neg ++ layout digits decpt
  end.

End Float.

(** ** Token derivation *)

Module Token.
Import Str Float.

Definition _get_token (tweet_id : string) : result string :=
  match of_string tweet_id with
  | Raise e => Raise e
  | Ok num =>
      let token := mul (div num float_1e15) math_pi in
      let token_str := remove_char "." (remove_char "0" (repr token)) in
      Ok token_str
  end.

End Token.

(** ** The HTTP client *)

Module Http.
Import Doc Str.

(** One [client.get] call: the URL, the request headers and the client's
    [follow_redirects] setting. *)
Record Request : Type := mkRequest {
  req_url : string;
  req_headers : list (string * string);
  follow_redirects : bool
}.

(** What the parser reads of an [httpx.Response]: the status, the headers
    as received, and the body decoded as JSON ([None] when the body is not
    a JSON document, in which case [response.json()] raises). *)
Record Response : Type := mkResponse {
  status_code : Z;
  headers : list (string * string);
  json : option Document
}.

(** [response.headers.get(key, default)]: header names compare without
    regard to case, and the values of a repeated header are joined. *)
Definition headers_get (hs : list (string * string)) (key default : string) : string :=
  let items :=
    map snd (filter (fun h => String.eqb (lower (fst h)) (lower key)) hs) in
  if truthy_list items then String.concat ", " items else default.

(** [response.raise_for_status()]: any status outside 2xx raises. *)
Definition is_success (status : Z) : bool := (200 <=? status) && (status <=? 299).

(** A coroutine of the parser: it returns, raises, or awaits one GET and
    goes on with what the client gives back, a response or the
    [httpx.RequestError] the client raised. *)
Inductive io (A : Type) : Type :=
| Ret (a : A)
| Throw (e : exn)
| Get (rq : Request) (k : result Response -> io A).
Arguments Ret {A} a.
Arguments Throw {A} e.
Arguments Get {A} rq k.

Fixpoint bind {A B : Type} (m : io A) (f : A -> io B) : io B :=
  match m with
  | Ret a => f a
  | Throw e => Throw e
  | Get rq k => Get rq (fun r => bind (k r) f)
  end.

(** A plain function call inside a coroutine. *)
Definition lift {A : Type} (r : result A) : io A :=
  match r with
  | Ok a => Ret a
  | Raise e => Throw e
  end.

(** [await client.get(url, headers=...)] outside any [try]: an exception
    of the client is the coroutine's. *)
Definition client_get (rq : Request) : io Response :=
  Get rq lift.

(** The network answers a request, given the requests made before it. *)
Definition network : Type := list Request -> Request -> result Response.

(** Running a coroutine against a network: its outcome and the requests it
    made, oldest first. *)
Fixpoint run {A : Type} (net : network) (log : list Request) (m : io A)
  : result A * list Request :=
  match m with
  | Ret a => (Ok a, log)
  | Throw e => (Raise e, log)
  | Get rq k => run net (log ++ [rq]) (k (net log rq))
  end.

End Http.

Declare Scope io_scope.
Delimit Scope io_scope with io.
Notation "x <- m ;; f" := (Http.bind m (fun x => f))
  (at level 61, m at next level, right associativity) : io_scope.

(** ** The parser class *)

Module Twitter.
Import Doc Base Str Http.
Local Open Scope io_scope.

Definition _extract_tweet_id := Extractor._extract_tweet_id.
Definition _get_token := Token._get_token.

Definition tco_user_agent : string :=
  "Mozilla/5.0 (Windows NT 10.0; Win64; x64) AppleWebKit/537.36".

Definition api_user_agent : string :=
  "Mozilla/5.0 (Windows NT 10.0; Win64; x64) AppleWebKit/537.36 "
  ++ "(KHTML, like Gecko) Chrome/120.0.0.0 Safari/537.36".

(** Lines 135-154.  The client is made with [follow_redirects=False]; the
    [async with] block holds no handler, so what [client.get] raises
    leaves the coroutine. *)
Definition tco_request (tco_url : string) : Request :=
  mkRequest tco_url [("User-Agent", tco_user_agent)] false.

Definition _resolve_tco_url (tco_url : string) : io string :=
  response <- client_get (tco_request tco_url) ;;
  if (status_code response =? 301) || (status_code response =? 302) then
    let location := headers_get (headers response) "location" "" in
    if truthy location then Ret location else Ret tco_url
  else Ret tco_url.

Definition api_headers : list (string * string) :=
  [("User-Agent", api_user_agent);
   ("Accept", "application/json");
   ("Referer", "https://platform.twitter.com/")].

(** The request of lines 27-42; [httpx.AsyncClient()] does not follow
    redirects. *)
Definition api_request (video_id token : string) : Request :=
  let api_url :=
    "https://cdn.syndication.twimg.com/tweet-result?"
    ++ "id=" ++ video_id ++ "&token=" ++ token in
  mkRequest api_url api_headers false.

(** Lines 25-133. *)
Definition parse_video_id (video_id : string) : io VideoInfo :=
  token <- lift (_get_token video_id) ;;
  response <- client_get (api_request video_id token) ;;
  if negb (is_success (status_code response))
  then Throw (HTTPStatusError (status_code response))
  else
    match json response with
    | None => Throw JSONDecodeError
    | Some json_data => lift (Selector.parse_json json_data)
    end.

(** Lines 16-23. *)
Definition parse_share_url (share_url : string) : io VideoInfo :=
  share_url <- (if contains "t.co/" share_url
                then _resolve_tco_url share_url
                else Ret share_url) ;;
  tweet_id <- lift (_extract_tweet_id share_url) ;;
  parse_video_id tweet_id.

End Twitter.

(** ** The selection rule as the specification words it *)

Module SelectorSpec.
Import Doc Base.

Definition is_mp4 (v : Variant) : bool :=
  String.eqb (get (content_type v) "") "video/mp4".

(** A selection: the bitrate and the URL of the variant chosen so far. *)
Definition selection : Type := (Z * string)%type.

Definition select (v : Variant) : selection :=
  (get (bitrate v) 0, get (url v) "").

(** A later variant replaces the selection when its bitrate is strictly
    greater than the selection's, or when no URL has been chosen yet. *)
Definition replaces (later : Variant) (cur : selection) : bool :=
  (get (bitrate later) 0 >? fst cur) || negb (truthy (snd cur)).

Fixpoint best_from (cur : selection) (later : list Variant) : selection :=
  match later with
  | [] => cur
  | v :: rest => best_from (if replaces v cur then select v else cur) rest
  end.

(** Only MP4 variants count; the first one is the initial candidate. *)
Definition best_mp4 (vs : list Variant) : option selection :=
  match filter is_mp4 vs with
  | [] => None
  | first :: later => Some (best_from (select first) later)
  end.

Definition selected_url (s : option selection) : string :=
  match s with
  | Some (_, u) => u
  | None => ""
  end.

(** The image URLs of the photo entries, in document order, without the
    empty ones. *)
Definition photo_urls (ms : list Media) : list string :=
  filter truthy
    (map (fun m => get (media_url_https m) "")
         (filter (fun m => Selector.is_photo (type m)) ms)).

End SelectorSpec.

(** ** Sample documents *)

Module Examples.
Import Doc Base.

Definition mp4 (rate : Z) (u : string) : Variant :=
  mkVariant (Some "video/mp4") (Some rate) (Some u).

Definition hls (u : string) : Variant :=
  mkVariant (Some "application/x-mpegURL") None (Some u).

Definition photo (u : string) : Media :=
  mkMedia (Some "photo") (Some u) None.

Definition video_entry : Media :=
  mkMedia (Some "video") (Some "https://pbs.twimg.com/thumb.jpg")
    (Some (mkVideoInfoField (Some
       [hls "https://video.twimg.com/pl.m3u8";
        mp4 832000 "https://video.twimg.com/lo.mp4";
        mp4 2176000 "https://video.twimg.com/hi.mp4"]))).

(** A post with one video that has two MP4 variants. *)
Definition video_post : Document :=
  mkDocument None (Some "a video") (Some [video_entry; photo "https://pbs.twimg.com/1.jpg"]) None.

(** A post with three photos. *)
Definition gallery_post : Document :=
  mkDocument
    (Some (mkUser (Some "") (Some "alice") None None))
    (Some "three photos")
    (Some [photo "https://pbs.twimg.com/1.jpg";
           photo "https://pbs.twimg.com/2.jpg";
           photo "https://pbs.twimg.com/3.jpg"])
    None.

(** A GIF entry without variants, and a top-level video that only has a
    streaming playlist. *)
Definition playlist_post : Document :=
  mkDocument None None
    (Some [mkMedia (Some "animated_gif") (Some "https://pbs.twimg.com/gif.jpg") None])
    (Some (mkTopVideo (Some "https://pbs.twimg.com/poster.jpg")
             (Some [hls "https://video.twimg.com/pl.m3u8"]))).

(** A post whose video is only in the top-level [video] object. *)
Definition top_video_post : Document :=
  mkDocument None None None
    (Some (mkTopVideo (Some "https://pbs.twimg.com/poster.jpg")
             (Some [mp4 632000 "https://video.twimg.com/top.mp4"]))).

(** Networks: one that redirects the short link, one that answers 200,
    and one on which the request fails. *)
Definition redirecting : Http.network :=
  fun _ _ => Ok (Http.mkResponse 301 [("Location", "https://x.com/u/status/99")] None).

Definition not_redirecting : Http.network :=
  fun _ _ => Ok (Http.mkResponse 200 [("Content-Type", "text/html")] None).

Definition unreachable : Http.network :=
  fun _ _ => Raise (RequestError "connection refused").

(** A network that answers 200 with the document [d]. *)
Definition serving (d : Document) : Http.network :=
  fun _ _ => Ok (Http.mkResponse 200 [("Content-Type", "application/json")] (Some d)).

End Examples.

(** ** Token derivation as the specification words it *)

Module TokenSpec.
Import Str Float.

Definition is_zero_or_dot (c : ascii) : bool := Ascii.eqb c "0" || Ascii.eqb c ".".

(** Deleting every ['0'] and every ['.'] of a string. *)
Fixpoint delete_zeros_and_dots (s : string) : string :=
  match s with
  | EmptyString => EmptyString
  | String c s' =>
      if is_zero_or_dot c then delete_zeros_and_dots s'
      else String c (delete_zeros_and_dots s')
  end.

(** Convert to a float, compute [(value / 1e15) * pi], render, delete. *)
Definition token_of (identifier : string) : result string :=
  match of_string identifier with
  | Ok value =>
      Ok (delete_zeros_and_dots (repr (mul (div value float_1e15) math_pi)))
  | Raise e => Raise e
  end.

End TokenSpec.

(** ** The pipeline in words *)

Module PipelineSpec.
Import Http.

(** What the resolver returns when its request is answered: the value of
    the [Location] header of a 301 or 302 when it is not empty, and the
    short link otherwise. *)
Definition resolved_url (tco_url : string) (response : Response) : string :=
  if (status_code response =? 301) || (status_code response =? 302) then
    if truthy (headers_get (headers response) "location" "")
    then headers_get (headers response) "location" ""
    else tco_url
  else tco_url.

(** A network that redirects a short link to [target] and answers every
    other request with the document [d]. *)
Definition short_link_network (target : string) (d : Doc.Document) : network :=
  fun _ rq =>
    if Str.contains "t.co/" (req_url rq)
    then Ok (mkResponse 301 [("location", target)] None)
    else Ok (mkResponse 200 [("content-type", "application/json")] (Some d)).

End PipelineSpec.

(** * Properties *)

(** ** Media selection *)

Module SelectorFacts.
Import Doc Base Selector SelectorSpec.

Lemma truthy_false (s : string) : truthy s = false <-> s = "".
Proof. destruct s; simpl; split; congruence. Qed.

Lemma truthy_true (s : string) : truthy s = true <-> s <> "".
Proof. destruct s; simpl; split; congruence. Qed.

Lemma pick_variant_skip (st : Z * string) (v : Variant) :
  is_mp4 v = false -> pick_variant st v = st.
Proof.
  unfold is_mp4, pick_variant. destruct st as [mb vu]. intros ->. reflexivity.
Qed.

Lemma pick_variant_mp4 (st : Z * string) (v : Variant) :
  is_mp4 v = true ->
  pick_variant st v = if replaces v st then select v else st.
Proof.
  unfold is_mp4, pick_variant, replaces, select. destruct st as [mb vu].
  intros ->. reflexivity.
Qed.

(** The loop looks at MP4 variants only. *)
Lemma fold_pick_filter (vs : list Variant) (st : Z * string) :
  fold_left pick_variant vs st = fold_left pick_variant (filter is_mp4 vs) st.
Proof.
  revert st. induction vs as [|v vs IH]; intros st; simpl; [reflexivity|].
  destruct (is_mp4 v) eqn:E.
  - simpl. apply IH.
  - rewrite (pick_variant_skip _ _ E). apply IH.
Qed.

Lemma fold_pick_best_from (vs : list Variant) (st : Z * string) :
  forallb is_mp4 vs = true ->
  fold_left pick_variant vs st = best_from st vs.
Proof.
  revert st. induction vs as [|v vs IH]; intros st H; simpl in *; [reflexivity|].
  apply andb_prop in H as [Hv Hvs].
  rewrite (pick_variant_mp4 _ _ Hv). apply IH, Hvs.
Qed.

Lemma forallb_filter {A : Type} (p : A -> bool) (l : list A) :
  forallb p (filter p l) = true.
Proof.
  induction l as [|x l IH]; simpl; [reflexivity|].
  destruct (p x) eqn:E; simpl; [rewrite E|]; exact IH.
Qed.

(** The loop entered with no URL chosen computes [best_mp4]. *)
Lemma scan_variants_best (vs : list Variant) :
  scan_variants vs "" = selected_url (best_mp4 vs).
Proof.
  unfold scan_variants, best_mp4. rewrite fold_pick_filter.
  pose proof (forallb_filter is_mp4 vs) as H.
  destruct (filter is_mp4 vs) as [|v later]; [reflexivity|].
  simpl in H. apply andb_prop in H as [Hv Hl]. cbn [fold_left].
  rewrite (pick_variant_mp4 _ _ Hv). unfold replaces. cbn [fst snd truthy negb].
  rewrite orb_true_r. rewrite (fold_pick_best_from _ _ Hl).
  destruct (best_from (select v) later). reflexivity.
Qed.




(** A list that holds a video or GIF entry splits at the first one. *)
Lemma first_video_entry (ms : list Media) :
  existsb (fun m => is_video_type (get (type m) "")) ms = true ->
  exists before media after,
    ms = (before ++ media :: after)%list
    /\ (forall m, In m before -> is_video_type (get (type m) "") = false)
    /\ is_video_type (get (type media) "") = true.
Proof.
  induction ms as [|m ms IH]; simpl; [discriminate|].
  destruct (is_video_type (get (type m) "")) eqn:E; simpl.
  - intros _. exists [], m, ms. repeat split; [intros x [] | exact E].
  - intros H. destruct (IH H) as (before & media & after & -> & Hb & Hm).
    exists (m :: before), media, after. repeat split; [|exact Hm].
    intros x [<-|Hx]; [exact E | now apply Hb].
Qed.

Lemma scan_media_details_images (ms : list Media) (st : locals) :
  l_images (scan_media_details ms st) = l_images st.
Proof.
  induction ms as [|m ms IH]; simpl; [reflexivity|].
  destruct (is_video_type (get (type m) "")); [reflexivity | exact IH].
Qed.

Lemma tier1_images (d : Document) (st : locals) :
  l_images (tier1 d st) = l_images st.
Proof.
  unfold tier1. destruct (truthy_list _); [apply scan_media_details_images | reflexivity].
Qed.

Lemma tier2_images (d : Document) (st : locals) :
  l_images (tier2 d st) = l_images st.
Proof.
  unfold tier2. destruct (negb _); [|reflexivity].
  destruct (truthy_list _); reflexivity.
Qed.

Lemma tier3_video_url (d : Document) (st : locals) :
  l_video_url (tier3 d st) = l_video_url st.
Proof.
  unfold tier3. destruct (_ && _); [|reflexivity].
  destruct (collect_photos _ _); reflexivity.
Qed.

(** Photos are collected only when no video URL was obtained. *)
Lemma tier3_exclusive (d : Document) (st : locals) :
  l_images st = [] ->
  l_video_url (tier3 d st) <> "" -> l_images (tier3 d st) = [].
Proof.
  intros Hi Hv. unfold tier3 in *.
  destruct (truthy (l_video_url st)) eqn:E; simpl in *; [exact Hi|].
  destruct (truthy_list _); simpl in *.
  - exfalso. apply truthy_false in E.
    destruct (collect_photos _ _); simpl in Hv; congruence.
  - exact Hi.
Qed.

Lemma collect_photos_spec (ms : list Media) (images : list ImgInfo) :
  collect_photos ms images = (images ++ map mkImgInfo (photo_urls ms))%list.
Proof.
  unfold photo_urls. revert images.
  induction ms as [|m ms IH]; intros images; simpl.
  - now rewrite app_nil_r.
  - destruct (is_photo (type m)) eqn:E; simpl; [|apply IH].
    destruct (truthy (get (media_url_https m) "")) eqn:T; simpl; [|apply IH].
    rewrite IH, <- app_assoc. reflexivity.
Qed.

End SelectorFacts.

Module TwitterFacts.
Import Doc Base Http Twitter.

(** [parse_video_id] against a network: the token, one GET, the status
    check, the decoding, and the selection on the decoded document. *)
Lemma run_parse_video_id (net : network) (log : list Request) (video_id : string) :
  run net log (parse_video_id video_id) =
    match _get_token video_id with
    | Raise e => (Raise e, log)
    | Ok token =>
        (match net log (api_request video_id token) with
         | Raise e => Raise e
         | Ok response =>
             if negb (is_success (status_code response))
             then Raise (HTTPStatusError (status_code response))
             else
               match json response with
               | None => Raise JSONDecodeError
               | Some json_data => Selector.parse_json json_data
               end
         end,
         (log ++ [api_request video_id token])%list)
    end.
Proof.
  unfold parse_video_id, client_get.
  destruct (_get_token video_id) as [token|e]; cbn [lift bind run]; [|reflexivity].
  destruct (net log (api_request video_id token)) as [response|e];
    cbn [lift bind run]; [|reflexivity].
  destruct (negb (is_success (status_code response))); cbn [run]; [reflexivity|].
  destruct (json response) as [json_data|]; cbn [run]; [|reflexivity].
  destruct (Selector.parse_json json_data); reflexivity.
Qed.

(** When the endpoint answers with a success status and a document, the
    outcome of [parse_video_id] is that of the selection on the document. *)
Lemma parse_video_id_on_document
    (net : network) (log : list Request) (video_id token : string)
    (response : Response) (json_data : Document) :
  _get_token video_id = Ok token ->
  net log (api_request video_id token) = Ok response ->
  is_success (status_code response) = true ->
  json response = Some json_data ->
  fst (run net log (parse_video_id video_id)) = Selector.parse_json json_data.
Proof.
  intros Ht Hn Hs Hj. rewrite run_parse_video_id, Ht, Hn, Hs, Hj. reflexivity.
Qed.

End TwitterFacts.

Module SelectorClaims.
Import Doc Base Selector SelectorSpec SelectorFacts.



Lemma tier12_images (d : Document) : l_images (tier2 d (tier1 d init)) = [].
Proof. now rewrite tier2_images, tier1_images. Qed.

Lemma parse_json_ok (d : Document) :
  let st := select_media d in
  l_video_url st <> "" \/ l_images st <> [] ->
  parse_json d =
    Ok (mkVideoInfo (l_video_url st) (l_cover_url st) (get (text d) "") (l_images st)
          (mkVideoAuthor
             (get (id_str (get (user d) empty_user)) "")
             (if truthy (get (name (get (user d) empty_user)) "")
              then get (name (get (user d) empty_user)) ""
              else get (screen_name (get (user d) empty_user)) "")
             (get (profile_image_url_https (get (user d) empty_user)) ""))).
Proof.
  intros st H. unfold parse_json. fold st.
  destruct (truthy (l_video_url st)) eqn:E; [reflexivity|].
  destruct (l_images st) eqn:I; [|reflexivity].
  apply truthy_false in E. destruct H; congruence.
Qed.

Lemma parse_json_raise (d : Document) :
  let st := select_media d in
  l_video_url st = "" -> l_images st = [] ->
  parse_json d = Raise (Exception no_media_message).
Proof.
  intros st Hv Hi. unfold parse_json. fold st. rewrite Hv, Hi. reflexivity.
Qed.

Lemma media_found_dec (d : Document) :
  let st := select_media d in
  (l_video_url st = "" /\ l_images st = [])
  \/ (l_video_url st <> "" \/ l_images st <> []).
Proof.
  intros st. destruct (l_video_url st); [|right; left; congruence].
  destruct (l_images st); [left; now split | right; right; congruence].
Qed.

(** C2.  Once the endpoint has answered with the response document, the
    outcome of [parse_video_id] is that of [parse_json] on the document,
    which either returns a result in which exactly one of [video_url]
    non-empty and [images] non-empty holds, or raises the no-media
    exception; it raises exactly when the three tiers left both the video
    URL and the images empty, it raises nothing else, and it never returns
    a result with both empty. *)
Theorem parse_json_dichotomy (json_data : Document) :
  let st := select_media json_data in
  (forall (net : Http.network) (log : list Http.Request) (video_id token : string)
          (response : Http.Response),
      Twitter._get_token video_id = Ok token ->
      net log (Twitter.api_request video_id token) = Ok response ->
      Http.is_success (Http.status_code response) = true ->
      Http.json response = Some json_data ->
      fst (Http.run net log (Twitter.parse_video_id video_id)) = parse_json json_data)
  /\ ((exists info, parse_json json_data = Ok info
      /\ ((video_url info <> "" /\ images info = [])
          \/ (video_url info = "" /\ images info <> [])))
   \/ parse_json json_data = Raise (Exception no_media_message))
  /\ (parse_json json_data = Raise (Exception no_media_message)
      <-> l_video_url st = "" /\ l_images st = [])
  /\ (forall e, parse_json json_data = Raise e -> e = Exception no_media_message)
  /\ (forall info, parse_json json_data = Ok info ->
        ~ (video_url info = "" /\ images info = [])).
Proof.
  intros st.
  assert (Hex : l_video_url st <> "" -> l_images st = []).
  { subst st. unfold select_media. apply tier3_exclusive, tier12_images. }
  split; [intros net log video_id token response;
          apply TwitterFacts.parse_video_id_on_document|].
  destruct (media_found_dec json_data) as [[Hv Hi]|Hfound].
  - fold st in Hv, Hi.
    pose proof (parse_json_raise json_data Hv Hi) as Hr.
    split; [now right|]. split; [|split].
    + split; [intros _; now split | intros _; exact Hr].
    + intros e He. congruence.
    + intros info Hinfo. congruence.
  - fold st in Hfound.
    pose proof (parse_json_ok json_data Hfound) as Hok. fold st in Hok.
    split; [|split; [|split]].
    + left. eexists. split; [exact Hok|]. cbn [video_url images].
      destruct (l_video_url st) eqn:E.
      * right. split; [reflexivity|]. destruct Hfound; congruence.
      * left. split; [congruence|]. apply Hex. congruence.
    + split; [intros Hr; congruence|].
      intros [Hv Hi]. destruct Hfound; congruence.
    + intros e He. congruence.
    + intros info Hinfo [Hv Hi]. rewrite Hok in Hinfo. injection Hinfo as <-.
      cbn [video_url images] in *. destruct Hfound; congruence.
Qed.

Lemma parse_json_dichotomy_witness :
  fst (Http.run (Examples.serving Examples.video_post) []
         (Twitter.parse_video_id "1234567890123456"))
  = parse_json Examples.video_post.
Proof.
  apply (proj1 (parse_json_dichotomy Examples.video_post)
           (Examples.serving Examples.video_post) [] "1234567890123456" "38785941396975"
           (Http.mkResponse 200 [("Content-Type", "application/json")]
              (Some Examples.video_post)));
    reflexivity || (vm_compute; reflexivity).
Defined.

Lemma select_media_video (d : Document) :
  l_video_url (select_media d) = l_video_url (tier2 d (tier1 d init)).
Proof. apply tier3_video_url. Qed.

Lemma tier3_keeps_video (d : Document) (st : locals) :
  l_video_url st <> "" -> tier3 d st = st.
Proof.
  intros H. unfold tier3. apply truthy_true in H. rewrite H. reflexivity.
Qed.

(** C6, as stated: after tier 2 the cover is the poster when the selection
    obtained an MP4 URL, and the cover of tier 1 otherwise.  The second
    half fails on a document whose top-level variants hold no MP4. *)
Lemma tier2_cover_counterexample :
  ~ (forall json_data : Document,
       let st1 := tier1 json_data init in
       let st2 := tier2 json_data st1 in
       l_video_url st1 = "" ->
       (l_video_url st2 <> "" ->
          l_cover_url st2 = get (poster (get (video json_data) empty_top_video)) "")
       /\ (l_video_url st2 = "" -> l_cover_url st2 = l_cover_url st1)).
Proof.
  intros H. destruct (H Examples.playlist_post eq_refl) as [_ Hkeep].
  specialize (Hkeep eq_refl). vm_compute in Hkeep. discriminate Hkeep.
Qed.

(** C6, amended (tier 2).  When tier 1 produced no video URL, tier 2 looks
    at the variants of the top-level [video] object.  If that list is not
    empty it applies the same selection as tier 1 and takes the cover from
    the [poster] attribute, whether or not an MP4 URL was obtained; if the
    list is missing or empty the locals are left as tier 1 set them.  When
    the selection obtains a URL the result returned carries that URL, the
    poster as cover, and no images. *)
Theorem tier2_top_level_video (json_data : Document) :
  let st1 := tier1 json_data init in
  let top := get (video json_data) empty_top_video in
  let vs := get (top_variants top) [] in
  let st2 := tier2 json_data st1 in
  l_video_url st1 = "" ->
  (vs <> [] ->
     l_video_url st2 = selected_url (best_mp4 vs)
     /\ l_cover_url st2 = get (poster top) "")
  /\ (vs = [] -> st2 = st1)
  /\ (l_video_url st2 <> "" ->
      exists info, parse_json json_data = Ok info
        /\ video_url info = selected_url (best_mp4 vs)
        /\ cover_url info = get (poster top) ""
        /\ images info = []).
Proof.
  intros st1 top vs st2 H1.
  assert (Hne : vs <> [] ->
            st2 = mkLocals (selected_url (best_mp4 vs)) (get (poster top) "") (l_images st1)).
  { intros Hvs. subst st2. unfold tier2. rewrite H1. cbn [truthy negb].
    fold top. fold vs. destruct vs as [|v vs'] eqn:E; [congruence|].
    cbn [truthy_list]. now rewrite scan_variants_best. }
  assert (He : vs = [] -> st2 = st1).
  { intros Hvs. subst st2. unfold tier2. rewrite H1. cbn [truthy negb].
    fold top. fold vs. rewrite Hvs. reflexivity. }
  split; [|split].
  - intros Hvs. rewrite (Hne Hvs). now split.
  - exact He.
  - intros Hv.
    assert (Hvs : vs <> []).
    { intros Hvs. rewrite (He Hvs) in Hv. congruence. }
    assert (Hsel : select_media json_data = st2).
    { unfold select_media. fold st1. fold st2. now apply tier3_keeps_video. }
    eexists. split.
    + apply parse_json_ok. left. rewrite Hsel. exact Hv.
    + cbn [video_url cover_url images]. rewrite Hsel, (Hne Hvs).
      cbn [l_video_url l_cover_url l_images]. repeat split.
      subst st1. apply tier1_images.
Qed.

Lemma tier2_top_level_video_witness :
  exists info, parse_json Examples.top_video_post = Ok info
    /\ video_url info = "https://video.twimg.com/top.mp4"
    /\ cover_url info = "https://pbs.twimg.com/poster.jpg"
    /\ images info = [].
Proof.
  destruct (tier2_top_level_video Examples.top_video_post eq_refl) as (_ & _ & H).
  apply H. vm_compute. discriminate.
Defined.

(** C7 (tier 3).  When tiers 1 and 2 obtained no video URL and
    [mediaDetails] is present, the images are the photo entries' URLs in
    document order without the empty ones, and the video URL stays empty;
    if at least one image was collected the parser succeeds with the first
    image's URL as cover.  In particular, entries that are all photos with
    a non-empty URL give one image each, in the original order. *)
Theorem photo_fallback (json_data : Document) (ms : list Media) :
  let st := select_media json_data in
  l_video_url (tier2 json_data (tier1 json_data init)) = "" ->
  mediaDetails json_data = Some ms ->
  l_images st = map mkImgInfo (photo_urls ms)
  /\ l_video_url st = ""
  /\ (forall first rest, photo_urls ms = first :: rest ->
        exists info, parse_json json_data = Ok info
          /\ video_url info = ""
          /\ cover_url info = first
          /\ images info = map mkImgInfo (first :: rest))
  /\ ((forall m, In m ms ->
         is_photo (type m) = true /\ get (media_url_https m) "" <> "") ->
      l_images st = map (fun m => mkImgInfo (get (media_url_https m) "")) ms
      /\ length (l_images st) = length ms).
Proof.
  intros st Hv Hms.
  assert (Hvs : l_video_url st = "").
  { subst st. now rewrite select_media_video. }
  assert (Hi : l_images st = map mkImgInfo (photo_urls ms)).
  { subst st. unfold select_media, tier3. rewrite Hv, Hms. cbn [get truthy negb andb].
    rewrite collect_photos_spec, tier12_images. cbn [app].
    destruct ms as [|m ms']; [cbn; apply tier12_images|]. cbn [truthy_list].
    destruct (map mkImgInfo (photo_urls (m :: ms'))); reflexivity. }
  split; [exact Hi|]. split; [exact Hvs|]. split.
  - intros first rest Hp.
    assert (Hc : l_cover_url st = first).
    { subst st. unfold select_media, tier3. rewrite Hv, Hms. cbn [get truthy negb andb].
      rewrite collect_photos_spec, tier12_images, Hp. cbn [app].
      destruct ms as [|m ms']; [discriminate Hp|]. reflexivity. }
    eexists. split.
    + apply parse_json_ok. right. fold st. rewrite Hi, Hp. discriminate.
    + cbn [video_url cover_url images]. fold st. rewrite Hvs, Hc, Hi, Hp. now repeat split.
  - intros Hall.
    assert (Hp : photo_urls ms = map (fun m => get (media_url_https m) "") ms).
    { unfold photo_urls. clear Hms Hi. induction ms as [|m ms' IH]; [reflexivity|].
      destruct (Hall m) as [Hph Hu]; [now left|]. cbn [filter map]. rewrite Hph.
      cbn [map filter]. apply truthy_true in Hu. rewrite Hu. f_equal.
      apply IH. intros x Hx. apply Hall. now right. }
    rewrite Hi, Hp, map_map. split; [reflexivity|]. now rewrite length_map.
Qed.

Lemma photo_fallback_witness :
  l_images (select_media Examples.gallery_post) =
    [mkImgInfo "https://pbs.twimg.com/1.jpg";
     mkImgInfo "https://pbs.twimg.com/2.jpg";
     mkImgInfo "https://pbs.twimg.com/3.jpg"]
  /\ l_video_url (select_media Examples.gallery_post) = "".
Proof.
  destruct (photo_fallback Examples.gallery_post
              [Examples.photo "https://pbs.twimg.com/1.jpg";
               Examples.photo "https://pbs.twimg.com/2.jpg";
               Examples.photo "https://pbs.twimg.com/3.jpg"] eq_refl eq_refl)
    as (Hi & Hv & _).
  split; [exact Hi | exact Hv].
Defined.

(** C10.  A document without the [user] object, or without some of its
    fields, does not make the parser fail: whenever media is found the
    parser succeeds, and each author field whose source is missing is the
    empty string; the display name falls back to [screen_name] and is
    empty when both [name] and [screen_name] are missing or empty. *)
Theorem author_fields_defaulted (json_data : Document) :
  let st := select_media json_data in
  l_video_url st <> "" \/ l_images st <> [] ->
  exists info, parse_json json_data = Ok info
    /\ (user json_data = None ->
          uid (author info) = "" /\ author_name (author info) = ""
          /\ avatar (author info) = "")
    /\ (forall u, user json_data = Some u ->
          (id_str u = None -> uid (author info) = "")
          /\ (profile_image_url_https u = None -> avatar (author info) = "")
          /\ (name u = None -> author_name (author info) = get (screen_name u) "")
          /\ (get (name u) "" = "" -> get (screen_name u) "" = "" ->
                author_name (author info) = "")).
Proof.
  intros st Hfound. eexists. split; [apply (parse_json_ok json_data Hfound)|].
  cbn [author uid author_name avatar]. split.
  - intros ->. cbn. now repeat split.
  - intros u ->. cbn [get]. repeat split.
    + now intros ->.
    + now intros ->.
    + now intros ->.
    + intros Hn Hs. rewrite Hn. cbn [truthy]. exact Hs.
Qed.

Lemma author_fields_defaulted_witness :
  exists info, parse_json Examples.video_post = Ok info
    /\ uid (author info) = "" /\ author_name (author info) = ""
    /\ avatar (author info) = "".
Proof.
  destruct (author_fields_defaulted Examples.video_post) as (info & Hok & Hnone & _).
  - left. vm_compute. discriminate.
  - exists info. split; [exact Hok|]. apply Hnone. reflexivity.
Defined.

End SelectorClaims.

(** ** Strings and the matcher *)

Module StrFacts.
Import Str.

Lemma append_assoc (a b c : string) : (a ++ b) ++ c = a ++ (b ++ c).
Proof. induction a as [|x a IH]; simpl; [reflexivity | now rewrite IH]. Qed.

Lemma append_nil_r (a : string) : a ++ "" = a.
Proof. induction a as [|x a IH]; simpl; [reflexivity | now rewrite IH]. Qed.

Lemma length_append (a b : string) :
  String.length (a ++ b) = (String.length a + String.length b)%nat.
Proof. induction a as [|x a IH]; simpl; [reflexivity | now rewrite IH]. Qed.

Lemma strip_prefix_app (l s : string) : strip_prefix l (l ++ s) = Some s.
Proof.
  induction l as [|c l IH]; simpl; [reflexivity|].
  now rewrite Ascii.eqb_refl.
Qed.

Lemma strip_prefix_Some (l s s' : string) :
  strip_prefix l s = Some s' -> s = l ++ s'.
Proof.
  revert s. induction l as [|c l IH]; intros s H; simpl in *.
  - congruence.
  - destruct s as [|d s]; [discriminate|].
    destruct (Ascii.eqb_spec c d) as [->|]; [|discriminate].
    now rewrite (IH _ H).
Qed.

Lemma all_chars_app (p : ascii -> bool) (a b : string) :
  all_chars p (a ++ b) = all_chars p a && all_chars p b.
Proof.
  induction a as [|x a IH]; simpl; [reflexivity|].
  now rewrite IH, andb_assoc.
Qed.

Lemma take_app (w s : string) : take (String.length w) (w ++ s) = w.
Proof. induction w as [|c w IH]; simpl; [now destruct s | now rewrite IH]. Qed.


(** A string splits at its first slash in one way only. *)
Lemma split_unique (a a' b b' : string) :
  all_chars not_slash a = true -> all_chars not_slash a' = true ->
  a ++ String "/" b = a' ++ String "/" b' -> a = a' /\ b = b'.
Proof.
  revert a'. induction a as [|x a IH]; intros a' Ha Ha' E.
  - destruct a' as [|y a']; simpl in *.
    + split; congruence.
    + injection E as <- _. discriminate Ha'.
  - destruct a' as [|y a']; simpl in *.
    + injection E as -> _. discriminate Ha.
    + injection E as <- E. apply andb_prop in Ha as [_ Ha].
      apply andb_prop in Ha' as [_ Ha'].
      destruct (IH a' Ha Ha' E) as [-> ->]. now split.
Qed.

End StrFacts.

Module ReFacts.
Import Str Re StrFacts.

Lemma consumed_app (w s : string) : consumed (w ++ s) s = w.
Proof.
  unfold consumed. rewrite length_append.
  replace (String.length w + String.length s - String.length s)%nat
    with (String.length w) by lia.
  apply take_app.
Qed.

Section PlusFrom.
Context {R : Type} (p : ascii -> bool).

Lemma plus_from_head (s : string) (k : string -> option R) :
  head_is p s = false -> plus_from p s k = None.
Proof. destruct s as [|c s]; simpl; [reflexivity | now intros ->]. Qed.

(** A match of [c+] took a non-empty run of the class, and the rest of
    the pattern matched what follows it. *)
Lemma plus_from_sound (s : string) (k : string -> option R) (a : R) :
  plus_from p s k = Some a ->
  exists w s', s = w ++ s' /\ w <> "" /\ all_chars p w = true /\ k s' = Some a.
Proof.
  induction s as [|c s IH]; simpl; [discriminate|].
  destruct (p c) eqn:Hc; [|discriminate].
  destruct (plus_from p s k) as [r|] eqn:E.
  - intros [= ->]. destruct (IH eq_refl) as (w & s' & -> & Hw & Hall & Hk).
    exists (String c w), s'. simpl. rewrite Hc, Hall. repeat split; congruence.
  - intros Hk. exists (String c ""), s. simpl. rewrite Hc.
    repeat split; congruence.
Qed.

(** The whole run is tried first. *)
Lemma plus_from_greedy (w s' : string) (k : string -> option R) (a : R) :
  w <> "" -> all_chars p w = true -> head_is p s' = false ->
  k s' = Some a -> plus_from p (w ++ s') k = Some a.
Proof.
  intros Hw Hall Hhead Hk. induction w as [|c w IH]; [congruence|].
  simpl in *. apply andb_prop in Hall as [Hc Hall]. rewrite Hc.
  destruct w as [|d w].
  - simpl. now rewrite (plus_from_head _ _ Hhead).
  - rewrite IH by (congruence || assumption). reflexivity.
Qed.

End PlusFrom.

Lemma search_cons_fail (r : regex) (c : ascii) (s : string) :
  match_at r (String c s) = None -> search r (String c s) = search r s.
Proof. intros H. simpl. now rewrite H. Qed.


(** Skipping a stretch of the input in which no match starts. *)
Lemma search_skip (r : regex) (a b : string) :
  (forall a1 a2, a = a1 ++ a2 -> a2 <> "" -> match_at r (a2 ++ b) = None) ->
  search r (a ++ b) = search r b.
Proof.
  induction a as [|c a IH]; intros H; [reflexivity|].
  change (String c a ++ b) with (String c (a ++ b)).
  rewrite search_cons_fail.
  - apply IH. intros a1 a2 -> Ha2. apply (H (String c a1) a2); [reflexivity | exact Ha2].
  - apply (H "" (String c a)); [reflexivity | discriminate].
Qed.

(** Where [search] finds a match, [match_at] finds it at some suffix. *)
Lemma search_sound (r : regex) (s : string) (m : match_obj) :
  search r s = Some m -> exists pre t, s = pre ++ t /\ match_at r t = Some m.
Proof.
  induction s as [|c s IH]; simpl.
  - destruct (match_at r "") eqn:E; [|discriminate].
    intros [= <-]. now exists "", "".
  - destruct (match_at r (String c s)) eqn:E.
    + intros [= <-]. now exists "", (String c s).
    + intros H. destruct (IH H) as (pre & t & -> & Ht).
      now exists (String c pre), t.
Qed.

End ReFacts.

(** ** Identifier extraction *)

Module ExtractorFacts.
Import Str Re Extractor StrFacts ReFacts.

Lemma match_at_pattern (s : string) :
  match_at pattern s =
    match
      match strip_prefix "twitter.com" s with
      | Some s' => after_domain s'
      | None => None
      end
    with
    | Some m => Some m
    | None =>
        match strip_prefix "x.com" s with
        | Some s' => after_domain s'
        | None => None
        end
    end.
Proof. reflexivity. Qed.

(** *** What a match implies *)

Lemma id_tail_sound (s : string) (m : match_obj) :
  id_tail s = Some m ->
  exists d post, s = "/" ++ d ++ post /\ d <> ""
    /\ all_chars is_digit d = true /\ m = Some d.
Proof.
  unfold id_tail. destruct (strip_prefix "/" s) as [s'|] eqn:E; [|discriminate].
  apply strip_prefix_Some in E as ->. intros H.
  apply plus_from_sound in H as (d & post & -> & Hd & Hall & Hm).
  exists d, post. rewrite consumed_app in Hm. repeat split; congruence.
Qed.

Lemma after_status_sound (s : string) (m : match_obj) :
  after_status s = Some m ->
  exists es d post, s = es ++ "/" ++ d ++ post /\ (es = "" \/ es = "es")
    /\ d <> "" /\ all_chars is_digit d = true /\ m = Some d.
Proof.
  unfold after_status. destruct (strip_prefix "es" s) as [s'|] eqn:E.
  - apply strip_prefix_Some in E as ->.
    destruct (id_tail s') as [m'|] eqn:T.
    + intros [= <-]. apply id_tail_sound in T as (d & post & -> & H).
      exists "es", d, post. split; [reflexivity|]. split; [now right | exact H].
    + intros T'. apply id_tail_sound in T' as (d & post & T' & _). discriminate T'.
  - intros T. apply id_tail_sound in T as (d & post & -> & H).
    exists "", d, post. split; [reflexivity|]. split; [now left | exact H].
Qed.

Lemma after_domain_sound (s : string) (m : match_obj) :
  after_domain s = Some m ->
  exists u es d post,
    s = "/" ++ u ++ "/status" ++ es ++ "/" ++ d ++ post
    /\ u <> "" /\ all_chars not_slash u = true
    /\ (es = "" \/ es = "es")
    /\ d <> "" /\ all_chars is_digit d = true /\ m = Some d.
Proof.
  unfold after_domain. destruct (strip_prefix "/" s) as [s'|] eqn:E; [|discriminate].
  apply strip_prefix_Some in E as ->. intros H.
  apply plus_from_sound in H as (u & s3 & -> & Hu & Hall & H).
  unfold after_user in H.
  destruct (strip_prefix "/status" s3) as [s4|] eqn:E; [|discriminate].
  apply strip_prefix_Some in E as ->.
  apply after_status_sound in H as (es & d & post & -> & H).
  exists u, es, d, post. repeat split; try tauto.
Qed.

Lemma match_at_sound (s : string) (m : match_obj) :
  match_at pattern s = Some m ->
  exists dom u es d post,
    s = dom ++ "/" ++ u ++ "/status" ++ es ++ "/" ++ d ++ post
    /\ is_domain dom
    /\ u <> "" /\ all_chars not_slash u = true
    /\ (es = "" \/ es = "es")
    /\ d <> "" /\ all_chars is_digit d = true /\ m = Some d.
Proof.
  rewrite match_at_pattern.
  destruct (strip_prefix "twitter.com" s) as [s1|] eqn:E1.
  - apply strip_prefix_Some in E1 as ->.
    destruct (after_domain s1) as [m'|] eqn:A.
    + intros [= <-]. apply after_domain_sound in A as (u & es & d & post & -> & H).
      exists "twitter.com", u, es, d, post.
      split; [reflexivity|]. split; [now left | exact H].
    + discriminate.
  - destruct (strip_prefix "x.com" s) as [s1|] eqn:E2; [|discriminate].
    apply strip_prefix_Some in E2 as ->. intros A.
    apply after_domain_sound in A as (u & es & d & post & -> & H).
    exists "x.com", u, es, d, post.
    split; [reflexivity|]. split; [now right | exact H].
Qed.

(** In the parser's pattern, group 1 takes part in every match and holds
    a non-empty string of digits. *)
Lemma search_pattern_sound (s : string) (m : match_obj) :
  search pattern s = Some m ->
  exists pre dom u es d post,
    s = pre ++ dom ++ "/" ++ u ++ "/status" ++ es ++ "/" ++ d ++ post
    /\ is_domain dom
    /\ u <> "" /\ all_chars not_slash u = true
    /\ (es = "" \/ es = "es")
    /\ d <> "" /\ all_chars is_digit d = true /\ m = Some d.
Proof.
  intros H. apply search_sound in H as (pre & t & -> & H).
  apply match_at_sound in H as (dom & u & es & d & post & -> & H).
  now exists pre, dom, u, es, d, post.
Qed.

(** *** What suffices for a match *)

Lemma id_tail_complete (d post : string) :
  d <> "" -> all_chars is_digit d = true -> head_is is_digit post = false ->
  id_tail ("/" ++ d ++ post) = Some (Some d).
Proof.
  intros Hd Hall Hpost. unfold id_tail. cbn [append strip_prefix].
  rewrite Ascii.eqb_refl.
  rewrite (plus_from_greedy is_digit d post _ (Some (consumed (d ++ post) post)));
    try assumption; [|reflexivity].
  now rewrite consumed_app.
Qed.


Lemma after_status_complete (es rest : string) (m : match_obj) :
  es = "" \/ es = "es" ->
  id_tail ("/" ++ rest) = Some m ->
  after_status (es ++ "/" ++ rest) = Some m.
Proof.
  intros [->| ->] H; unfold after_status.
  - change (strip_prefix "es" ("" ++ "/" ++ rest)) with (@None string).
    exact H.
  - rewrite strip_prefix_app. now rewrite H.
Qed.

Lemma after_domain_complete (u es rest : string) (m : match_obj) :
  u <> "" -> all_chars not_slash u = true ->
  es = "" \/ es = "es" ->
  id_tail ("/" ++ rest) = Some m ->
  after_domain ("/" ++ u ++ "/status" ++ es ++ "/" ++ rest) = Some m.
Proof.
  intros Hu Hall Hes H. unfold after_domain.
  change (strip_prefix "/" ("/" ++ u ++ "/status" ++ es ++ "/" ++ rest))
    with (Some (u ++ "/status" ++ es ++ "/" ++ rest)).
  apply plus_from_greedy; try assumption; [reflexivity|].
  unfold after_user. rewrite strip_prefix_app.
  now apply after_status_complete.
Qed.

Lemma match_at_complete (dom u es rest : string) (m : match_obj) :
  is_domain dom ->
  u <> "" -> all_chars not_slash u = true ->
  es = "" \/ es = "es" ->
  id_tail ("/" ++ rest) = Some m ->
  match_at pattern (dom ++ "/" ++ u ++ "/status" ++ es ++ "/" ++ rest) = Some m.
Proof.
  intros [->| ->] Hu Hall Hes H; rewrite match_at_pattern.
  - rewrite strip_prefix_app.
    now rewrite (after_domain_complete u es rest m Hu Hall Hes H).
  - change (strip_prefix "twitter.com" ("x.com" ++ "/" ++ u ++ "/status" ++ es ++ "/" ++ rest))
      with (@None string).
    rewrite strip_prefix_app.
    exact (after_domain_complete u es rest m Hu Hall Hes H).
Qed.

Lemma search_here (s : string) (m : match_obj) :
  match_at pattern s = Some m -> search pattern s = Some m.
Proof. intros H. destruct s; cbn [search]; now rewrite H. Qed.

(** *** Where no match starts *)

Lemma domain_not_slash (dom : string) :
  is_domain dom -> all_chars not_slash dom = true.
Proof. intros [->| ->]; reflexivity. Qed.

(** No match starts on a slash-free stretch that is not a domain and is
    followed by a slash. *)
Lemma no_match_before_slash (h rest : string) :
  all_chars not_slash h = true -> ~ is_domain h ->
  match_at pattern (h ++ "/" ++ rest) = None.
Proof.
  intros Hh Hdom. destruct (match_at pattern (h ++ "/" ++ rest)) as [m|] eqn:E;
    [exfalso | reflexivity].
  apply match_at_sound in E as (dom & u & es & d & post & E & Hd & _).
  apply split_unique in E as [-> _]; [auto | exact Hh | now apply domain_not_slash].
Qed.

(** No match starts inside the user segment of a status URL. *)
Lemma no_match_in_user (u2 es D : string) :
  all_chars not_slash u2 = true -> es = "" \/ es = "es" ->
  all_chars is_digit D = true ->
  match_at pattern (u2 ++ "/status" ++ es ++ "/" ++ D) = None.
Proof.
  intros Hu Hes HD.
  destruct (match_at pattern (u2 ++ "/status" ++ es ++ "/" ++ D)) as [m|] eqn:E;
    [exfalso | reflexivity].
  apply match_at_sound in E as (dom & u & es' & d & post & E & Hd & _ & Hu' & _).
  change (u2 ++ "/status" ++ es ++ "/" ++ D)
    with (u2 ++ String "/" (("status" ++ es) ++ String "/" D)) in E.
  change (dom ++ "/" ++ u ++ "/status" ++ es' ++ "/" ++ d ++ post)
    with (dom ++ String "/" (u ++ String "/" ("status" ++ es' ++ "/" ++ d ++ post))) in E.
  apply split_unique in E as [_ E]; [| exact Hu | now apply domain_not_slash].
  apply split_unique in E as [_ E]; [| now destruct Hes as [->| ->] | exact Hu'].
  rewrite E in HD. discriminate HD.
Qed.

Lemma no_match_at_digit (c : ascii) (s : string) :
  is_digit c = true -> match_at pattern (String c s) = None.
Proof.
  intros Hc. destruct (match_at pattern (String c s)) as [m|] eqn:E;
    [exfalso | reflexivity].
  apply match_at_sound in E as (dom & u & es & d & post & E & [->| ->] & _);
    injection E as -> _; discriminate Hc.
Qed.

Lemma search_digits (D : string) :
  all_chars is_digit D = true -> search pattern D = None.
Proof.
  induction D as [|c D IH]; [reflexivity|]. simpl all_chars. intros H.
  apply andb_prop in H as [Hc HD].
  rewrite search_cons_fail by now apply no_match_at_digit. now apply IH.
Qed.

Lemma search_status_tail (es D : string) :
  es = "" \/ es = "es" -> all_chars is_digit D = true ->
  search pattern ("/status" ++ es ++ "/" ++ D) = None.
Proof.
  intros [->| ->] HD; cbn [append];
    repeat (rewrite search_cons_fail by reflexivity); now apply search_digits.
Qed.

Lemma search_https (s : string) :
  search pattern ("https://" ++ s) = search pattern s.
Proof. cbn [append]. now do 8 (rewrite search_cons_fail by reflexivity). Qed.

Lemma ends_with_app (a b : string) : ends_with (a ++ b) b = true.
Proof.
  induction a as [|c a IH]; simpl.
  - destruct b; simpl; rewrite ?String.eqb_refl, ?Ascii.eqb_refl; reflexivity.
  - rewrite IH. apply orb_true_r.
Qed.

Lemma longer_not_domain (h dom : string) :
  h <> "" -> is_domain dom -> ~ is_domain (h ++ dom).
Proof.
  intros Hh Hdom Hd.
  assert (L : String.length (h ++ dom) = (String.length h + String.length dom)%nat)
    by apply length_append.
  destruct h as [|c0 h]; [congruence|].
  destruct Hdom as [->| ->], Hd as [Hd|Hd]; rewrite Hd in L; simpl in L; try lia.
  do 6 (destruct h as [|? h]; simpl in L; try lia; try discriminate Hd).
Qed.

(** *** The URL shapes *)

(** A status URL whose host ends in one of the two domains yields its
    identifier, whatever precedes the domain in the host. *)
Lemma extract_shape (h dom user es D : string) :
  all_chars not_slash h = true -> is_domain dom ->
  user <> "" -> all_chars not_slash user = true ->
  es = "" \/ es = "es" ->
  D <> "" -> all_chars is_digit D = true ->
  _extract_tweet_id ("https://" ++ h ++ dom ++ "/" ++ user ++ "/status" ++ es ++ "/" ++ D)
  = Ok D.
Proof.
  intros Hh Hdom Hu Huall Hes HD HDall. unfold _extract_tweet_id.
  rewrite search_https, search_skip.
  - rewrite (search_here _ (Some D)); [reflexivity|].
    apply match_at_complete; try assumption.
    rewrite <- (append_nil_r D) at 1. now apply id_tail_complete.
  - intros h1 h2 -> Hh2. rewrite all_chars_app in Hh. apply andb_prop in Hh as [_ Hh].
    rewrite <- append_assoc. apply no_match_before_slash.
    + rewrite all_chars_app, Hh. now apply domain_not_slash.
    + now apply longer_not_domain.
Qed.

(** A status URL yields its identifier whatever follows the digits, as
    long as it is not one more digit. *)
Lemma extract_shape_suffix (h dom user es D post : string) :
  all_chars not_slash h = true -> is_domain dom ->
  user <> "" -> all_chars not_slash user = true ->
  es = "" \/ es = "es" ->
  D <> "" -> all_chars is_digit D = true ->
  head_is is_digit post = false ->
  _extract_tweet_id
    ("https://" ++ h ++ dom ++ "/" ++ user ++ "/status" ++ es ++ "/" ++ D ++ post)
  = Ok D.
Proof.
  intros Hh Hdom Hu Huall Hes HD HDall Hpost. unfold _extract_tweet_id.
  rewrite search_https, search_skip.
  - rewrite (search_here _ (Some D)); [reflexivity|].
    apply match_at_complete; try assumption. now apply id_tail_complete.
  - intros h1 h2 -> Hh2. rewrite all_chars_app in Hh. apply andb_prop in Hh as [_ Hh].
    rewrite <- append_assoc. apply no_match_before_slash.
    + rewrite all_chars_app, Hh. now apply domain_not_slash.
    + now apply longer_not_domain.
Qed.

(** A status URL whose host does not end in one of the two domains, as
    the pattern spells them, has no match. *)
Lemma search_other_host (h user es D : string) :
  all_chars not_slash h = true ->
  ends_with h "twitter.com" = false -> ends_with h "x.com" = false ->
  all_chars not_slash user = true ->
  es = "" \/ es = "es" ->
  all_chars is_digit D = true ->
  search pattern ("https://" ++ h ++ "/" ++ user ++ "/status" ++ es ++ "/" ++ D) = None.
Proof.
  intros Hh Ht Hx Hu Hes HD. rewrite search_https, search_skip.
  - cbn [append]. rewrite search_cons_fail by reflexivity.
    rewrite search_skip; [now apply search_status_tail|].
    intros u1 u2 -> _. rewrite all_chars_app in Hu. apply andb_prop in Hu as [_ Hu].
    now apply no_match_in_user.
  - intros h1 h2 -> _. rewrite all_chars_app in Hh. apply andb_prop in Hh as [_ Hh].
    apply no_match_before_slash; [exact Hh|].
    intros [->| ->]; rewrite ends_with_app in *; discriminate.
Qed.

(** *** URLs without an identifier *)

Lemma has_status_id_app (p t : string) :
  has_status_id t = true -> has_status_id (p ++ t) = true.
Proof.
  intros H. induction p as [|c p IH]; [exact H|].
  change (String c p ++ t) with (String c (p ++ t)).
  cbn [has_status_id]. rewrite IH. apply orb_true_r.
Qed.

Lemma has_status_id_unfold (s : string) :
  has_status_id s =
    (match strip_prefix "/status/" s with
     | Some rest => head_is is_digit rest
     | None => false
     end
     || match strip_prefix "/statuses/" s with
        | Some rest => head_is is_digit rest
        | None => false
        end
     || match s with
        | EmptyString => false
        | String _ s' => has_status_id s'
        end).
Proof. destruct s; reflexivity. Qed.

Lemma has_status_id_status (c : ascii) (rest : string) :
  is_digit c = true -> has_status_id ("/status/" ++ String c rest) = true.
Proof.
  intros Hc. rewrite has_status_id_unfold, (strip_prefix_app "/status/").
  cbn [head_is]. now rewrite Hc.
Qed.

Lemma has_status_id_statuses (c : ascii) (rest : string) :
  is_digit c = true -> has_status_id ("/statuses/" ++ String c rest) = true.
Proof.
  intros Hc. rewrite has_status_id_unfold, (strip_prefix_app "/statuses/").
  cbn [head_is]. rewrite Hc. now rewrite orb_true_r.
Qed.

Lemma has_status_id_here (es : string) (c : ascii) (rest : string) :
  es = "" \/ es = "es" -> is_digit c = true ->
  has_status_id ("/status" ++ es ++ "/" ++ String c rest) = true.
Proof.
  intros [->| ->] Hc.
  - now apply has_status_id_status.
  - now apply has_status_id_statuses.
Qed.

Lemma search_has_status_id (s : string) (m : match_obj) :
  search pattern s = Some m -> has_status_id s = true.
Proof.
  intros H.
  apply search_pattern_sound in H
    as (pre & dom & u & es & d & post & -> & _ & _ & _ & Hes & Hd & Hall & _).
  destruct d as [|c d]; [congruence|]. simpl in Hall.
  apply andb_prop in Hall as [Hc _].
  replace (pre ++ dom ++ "/" ++ u ++ "/status" ++ es ++ "/" ++ String c d ++ post)
    with ((pre ++ dom ++ "/" ++ u) ++ "/status" ++ es ++ "/" ++ String c (d ++ post))
    by (now rewrite !append_assoc).
  apply has_status_id_app. now apply has_status_id_here.
Qed.

(** [has_status_id] in words. *)
Lemma has_status_id_iff (s : string) :
  has_status_id s = true <->
  exists p c q, is_digit c = true
    /\ (s = p ++ "/status/" ++ String c q \/ s = p ++ "/statuses/" ++ String c q).
Proof.
  split.
  - induction s as [|x s IH].
    + cbn. discriminate.
    + cbn [has_status_id]. intros H. apply orb_prop in H as [H|H].
      * apply orb_prop in H as [H|H].
        -- destruct (strip_prefix "/status/" (String x s)) as [rest|] eqn:E; [|discriminate].
           apply strip_prefix_Some in E. destruct rest as [|c q]; [discriminate|].
           exists "", c, q. split; [exact H | now left].
        -- destruct (strip_prefix "/statuses/" (String x s)) as [rest|] eqn:E; [|discriminate].
           apply strip_prefix_Some in E. destruct rest as [|c q]; [discriminate|].
           exists "", c, q. split; [exact H | now right].
      * destruct (IH H) as (p & c & q & Hc & [->| ->]);
          exists (String x p), c, q; (split; [exact Hc|]); [now left | now right].
  - intros (p & c & q & Hc & [->| ->]); apply has_status_id_app.
    + now apply (has_status_id_here "" c q); [left|].
    + now apply (has_status_id_here "es" c q); [right|].
Qed.

End ExtractorFacts.

Module ExtractorClaims.
Import Str Re Extractor StrFacts ReFacts ExtractorFacts.

Lemma extract_none (url : string) :
  search pattern url = None ->
  _extract_tweet_id url = Raise (ValueError (invalid_url_message ++ url)).
Proof. unfold _extract_tweet_id. now intros ->. Qed.

(** C4, as stated: a URL whose id part is not a string of digits is
    rejected.  The pattern is not anchored at its end, so an id part that
    only starts with digits is accepted. *)
Lemma extract_id_part_counterexample :
  ~ (forall user idpart : string,
       all_chars is_digit idpart = false ->
       _extract_tweet_id ("https://x.com/" ++ user ++ "/status/" ++ idpart)
       = Raise (ValueError (invalid_url_message
                            ++ "https://x.com/" ++ user ++ "/status/" ++ idpart))).
Proof.
  intros H. specialize (H "user" "12ab" eq_refl). vm_compute in H. discriminate H.
Qed.

(** C4, amended.  For every non-empty string of digits [D] and every user
    segment, the extractor returns exactly [D] on
    [https://x.com/<user>/status/D], [https://twitter.com/<user>/status/D]
    and [https://mobile.twitter.com/<user>/statuses/D]; on every URL in
    which neither [/status/] nor [/statuses/] is anywhere followed by a
    digit it raises [ValueError] with a message that carries the URL; and
    an id part that starts with the digits [D] and goes on with other
    characters is accepted and yields [D], its leading digits. *)
Theorem extract_tweet_id_shapes :
  (forall user D : string,
      user <> "" -> all_chars not_slash user = true ->
      D <> "" -> all_chars is_digit D = true ->
      _extract_tweet_id ("https://x.com/" ++ user ++ "/status/" ++ D) = Ok D
      /\ _extract_tweet_id ("https://twitter.com/" ++ user ++ "/status/" ++ D) = Ok D
      /\ _extract_tweet_id ("https://mobile.twitter.com/" ++ user ++ "/statuses/" ++ D)
         = Ok D)
  /\ (forall url : string,
        has_status_id url = false ->
        _extract_tweet_id url = Raise (ValueError (invalid_url_message ++ url)))
  /\ (forall user D rest : string,
        user <> "" -> all_chars not_slash user = true ->
        D <> "" -> all_chars is_digit D = true ->
        head_is is_digit rest = false ->
        _extract_tweet_id ("https://x.com/" ++ user ++ "/status/" ++ D ++ rest) = Ok D
        /\ _extract_tweet_id ("https://twitter.com/" ++ user ++ "/status/" ++ D ++ rest)
           = Ok D
        /\ _extract_tweet_id
             ("https://mobile.twitter.com/" ++ user ++ "/statuses/" ++ D ++ rest)
           = Ok D).
Proof.
  split; [|split].
  - intros user D Hu Hall HD HDall. repeat split.
    + apply (extract_shape "" "x.com" user "" D); auto; now right.
    + apply (extract_shape "" "twitter.com" user "" D); auto; now left.
    + apply (extract_shape "mobile." "twitter.com" user "es" D); auto; now left.
  - intros url H. apply extract_none.
    destruct (search pattern url) as [m|] eqn:E; [|reflexivity].
    apply search_has_status_id in E. congruence.
  - intros user D rest Hu Hall HD HDall Hrest. repeat split.
    + apply (extract_shape_suffix "" "x.com" user "" D rest); auto; now right.
    + apply (extract_shape_suffix "" "twitter.com" user "" D rest); auto; now left.
    + apply (extract_shape_suffix "mobile." "twitter.com" user "es" D rest); auto;
        now left.
Qed.

Lemma extract_tweet_id_shapes_witness :
  _extract_tweet_id "https://x.com/user/status/1234567890" = Ok "1234567890"
  /\ _extract_tweet_id "https://example.org/status" =
       Raise (ValueError (invalid_url_message ++ "https://example.org/status"))
  /\ _extract_tweet_id "https://x.com/user/status/12ab" = Ok "12".
Proof.
  destruct extract_tweet_id_shapes as (Hshape & Hnone & Hprefix).
  split; [|split].
  - apply (Hshape "user" "1234567890"); (discriminate || reflexivity).
  - apply Hnone. reflexivity.
  - apply (Hprefix "user" "12" "ab"); (discriminate || reflexivity).
Defined.

(** C8, as stated: the letter case of the domain does not matter.  The
    pattern is matched with case, and [X.com] is not [x.com]. *)
Lemma domain_case_counterexample :
  ~ (forall user D : string,
       user <> "" -> all_chars not_slash user = true ->
       D <> "" -> all_chars is_digit D = true ->
       _extract_tweet_id ("https://X.com/" ++ user ++ "/status/" ++ D) = Ok D).
Proof.
  intros H.
  assert (E : _extract_tweet_id "https://X.com/user/status/1234567890" = Ok "1234567890")
    by (apply (H "user" "1234567890"); (discriminate || reflexivity)).
  vm_compute in E. discriminate E.
Qed.

(** C8, amended.  The domain is matched with case.  A status URL yields
    its identifier [D] when its host ends in [twitter.com] or [x.com]
    spelt in lower case, whatever the case of a subdomain before it; when
    the host does not end in either, as with [X.com] or [TWITTER.com], the
    extractor raises [ValueError] with a message that carries the URL. *)
Theorem domain_case_sensitive (user es D : string) :
  all_chars not_slash user = true ->
  es = "" \/ es = "es" ->
  all_chars is_digit D = true ->
  (forall sub dom : string,
      all_chars not_slash sub = true -> is_domain dom ->
      user <> "" -> D <> "" ->
      _extract_tweet_id ("https://" ++ sub ++ dom ++ "/" ++ user ++ "/status" ++ es ++ "/" ++ D)
      = Ok D)
  /\ (forall host : string,
        all_chars not_slash host = true ->
        ends_with host "twitter.com" = false -> ends_with host "x.com" = false ->
        let url := "https://" ++ host ++ "/" ++ user ++ "/status" ++ es ++ "/" ++ D in
        _extract_tweet_id url = Raise (ValueError (invalid_url_message ++ url))).
Proof.
  intros Hu Hes HD. split.
  - intros sub dom Hsub Hdom Hune HDne. now apply extract_shape.
  - intros host Hh Ht Hx url. apply extract_none. now apply search_other_host.
Qed.

Lemma domain_case_sensitive_witness :
  _extract_tweet_id "https://MOBILE.twitter.com/user/status/1234567890" = Ok "1234567890"
  /\ _extract_tweet_id "https://X.com/user/status/1234567890" =
       Raise (ValueError (invalid_url_message ++ "https://X.com/user/status/1234567890"))
  /\ _extract_tweet_id "https://TWITTER.com/user/status/1234567890" =
       Raise (ValueError (invalid_url_message ++ "https://TWITTER.com/user/status/1234567890")).
Proof.
  destruct (domain_case_sensitive "user" "" "1234567890" eq_refl (or_introl eq_refl) eq_refl)
    as [Hlow Hup].
  split; [|split].
  - apply (Hlow "MOBILE." "twitter.com"); (reflexivity || (now left) || discriminate).
  - apply (Hup "X.com"); reflexivity.
  - apply (Hup "TWITTER.com"); reflexivity.
Defined.



End ExtractorClaims.

(** ** Short-link resolution *)

Module ResolverClaims.
Import Str Http Twitter.

Lemma run_resolve (net : network) (log : list Request) (tco_url : string) :
  run net log (_resolve_tco_url tco_url) =
    (match net log (tco_request tco_url) with
     | Ok response =>
         if (status_code response =? 301) || (status_code response =? 302) then
           if truthy (headers_get (headers response) "location" "")
           then Ok (headers_get (headers response) "location" "")
           else Ok tco_url
         else Ok tco_url
     | Raise e => Raise e
     end,
     (log ++ [tco_request tco_url])%list).
Proof.
  unfold _resolve_tco_url, client_get. cbn [bind run].
  destruct (net log (tco_request tco_url)) as [response|e]; cbn [lift bind run];
    [|reflexivity].
  destruct ((status_code response =? 301) || (status_code response =? 302));
    [|reflexivity].
  destruct (truthy (headers_get (headers response) "location" "")); reflexivity.
Qed.

(** C3, as stated: the resolver never raises.  It has no handler around
    the request, so a failure of the request is its own. *)
Lemma resolve_raises_counterexample :
  ~ (forall (net : network) (tco_url : string),
       exists resolved, fst (run net [] (_resolve_tco_url tco_url)) = Ok resolved).
Proof.
  intros H. destruct (H Examples.unreachable "https://t.co/abc") as [resolved E].
  vm_compute in E. discriminate E.
Qed.

(** C3, amended.  The resolver issues exactly one GET, for the short link,
    without following redirects.  When the request is answered, it returns
    the value of the [Location] header if the status is 301 or 302 and
    that value is not empty, and the short link itself otherwise (another
    status, or a missing or empty header).  When the request fails, the
    exception is raised to the caller, and [parse_share_url] raises it in
    its turn. *)
Theorem resolve_tco_url_outcomes (net : network) (log : list Request) (tco_url : string) :
  let rq := tco_request tco_url in
  let outcome := fst (run net log (_resolve_tco_url tco_url)) in
  snd (run net log (_resolve_tco_url tco_url)) = (log ++ [rq])%list
  /\ follow_redirects rq = false
  /\ (forall response,
        net log rq = Ok response ->
        let location := headers_get (headers response) "location" "" in
        (status_code response = 301 \/ status_code response = 302 ->
           location <> "" -> outcome = Ok location)
        /\ (status_code response <> 301 /\ status_code response <> 302 \/ location = "" ->
              outcome = Ok tco_url))
  /\ (forall e,
        net log rq = Raise e ->
        outcome = Raise e
        /\ (contains "t.co/" tco_url = true ->
              fst (run net log (parse_share_url tco_url)) = Raise e)).
Proof.
  intros rq outcome. subst outcome. rewrite run_resolve. fold rq. cbn [fst snd].
  split; [reflexivity|]. split; [reflexivity|]. split.
  - intros response ->. cbn zeta. split.
    + intros Hst Hloc.
      replace ((status_code response =? 301) || (status_code response =? 302)) with true
        by (symmetry; destruct Hst as [->| ->]; reflexivity).
      apply SelectorFacts.truthy_true in Hloc. now rewrite Hloc.
    + intros [[H1 H2]|Hloc].
      * apply Z.eqb_neq in H1, H2. now rewrite H1, H2.
      * rewrite Hloc. cbn [truthy]. now destruct (_ || _).
  - intros e He. rewrite He. split; [reflexivity|].
    intros Hc. unfold parse_share_url. rewrite Hc.
    unfold _resolve_tco_url, client_get. cbn [bind run]. fold rq. rewrite He.
    reflexivity.
Qed.

Lemma resolve_tco_url_outcomes_witness :
  fst (run Examples.redirecting [] (_resolve_tco_url "https://t.co/abc"))
    = Ok "https://x.com/u/status/99"
  /\ fst (run Examples.not_redirecting [] (_resolve_tco_url "https://t.co/abc"))
    = Ok "https://t.co/abc"
  /\ fst (run Examples.unreachable [] (parse_share_url "https://t.co/abc"))
    = Raise (RequestError "connection refused").
Proof.
  split; [|split].
  - destruct (resolve_tco_url_outcomes Examples.redirecting [] "https://t.co/abc")
      as (_ & _ & H & _).
    apply (H _ eq_refl); [now left | discriminate].
  - destruct (resolve_tco_url_outcomes Examples.not_redirecting [] "https://t.co/abc")
      as (_ & _ & H & _).
    apply (H _ eq_refl). left. split; discriminate.
  - destruct (resolve_tco_url_outcomes Examples.unreachable [] "https://t.co/abc")
      as (_ & _ & _ & H).
    apply (H _ eq_refl). reflexivity.
Defined.

End ResolverClaims.

(** ** Token derivation *)

Module TokenClaims.
Import Str Float Token TokenSpec.

(** The two [replace] calls delete what the specification deletes. *)
Lemma remove_zeros_then_dots (s : string) :
  remove_char "." (remove_char "0" s) = delete_zeros_and_dots s.
Proof.
  induction s as [|c s IH]; [reflexivity|].
  cbn [remove_char delete_zeros_and_dots]. unfold is_zero_or_dot.
  destruct (Ascii.eqb_spec c "0") as [->|H0]; cbn [orb].
  - exact IH.
  - cbn [remove_char]. destruct (Ascii.eqb c "."); [exact IH | now rewrite IH].
Qed.

Lemma delete_leaves_none (s : string) :
  all_chars (fun c => negb (is_zero_or_dot c)) (delete_zeros_and_dots s) = true.
Proof.
  induction s as [|c s IH]; [reflexivity|]. cbn [delete_zeros_and_dots].
  destruct (is_zero_or_dot c) eqn:E; [exact IH|].
  cbn [all_chars]. now rewrite E, IH.
Qed.

(** C5.  [_get_token] is a function of the identifier alone (it is not a
    coroutine and reads nothing else), and it is the algorithm of the
    specification: the identifier read as a binary64 float, divided by
    [1e15], multiplied by pi, rendered as the shortest decimal that reads
    back, with every ['0'] and ['.'] deleted, so that no token holds
    either character.  For the identifier [1234567890123456] the float is
    rendered as [3.8785094139697005], which reads back as that float, and
    the token is [38785941396975]. *)
Theorem get_token_algorithm :
  (forall tweet_id : string, _get_token tweet_id = token_of tweet_id)
  /\ (forall tweet_id token : string,
        _get_token tweet_id = Ok token ->
        all_chars (fun c => negb (is_zero_or_dot c)) token = true)
  /\ (exists value : float,
        of_string "1234567890123456" = Ok value
        /\ repr (mul (div value float_1e15) math_pi) = "3.8785094139697005"
        /\ of_string "3.8785094139697005" = Ok (mul (div value float_1e15) math_pi))
  /\ _get_token "1234567890123456" = Ok "38785941396975".
Proof.
  assert (Heq : forall tweet_id, _get_token tweet_id = token_of tweet_id).
  { intros tweet_id. unfold _get_token, token_of.
    destruct (of_string tweet_id); [|reflexivity].
    now rewrite remove_zeros_then_dots. }
  split; [exact Heq|]. split; [|split].
  - intros tweet_id token. rewrite Heq. unfold token_of.
    destruct (of_string tweet_id); [|discriminate].
    intros [= <-]. apply delete_leaves_none.
  - eexists. split; [vm_compute; reflexivity|]. split; vm_compute; reflexivity.
  - vm_compute. reflexivity.
Qed.

Lemma get_token_algorithm_witness :
  all_chars (fun c => negb (is_zero_or_dot c)) "38785941396975" = true.
Proof.
  destruct get_token_algorithm as (_ & Hclean & _ & Hgolden).
  exact (Hclean _ _ Hgolden).
Defined.

End TokenClaims.

(** ** [float] on the identifiers the extractor returns *)

Module DigitsFacts.
Import Str Float StrFacts.

Lemma is_digit_cases (c : ascii) :
  is_digit c = true ->
  c = "0"%char \/ c = "1"%char \/ c = "2"%char \/ c = "3"%char \/ c = "4"%char
  \/ c = "5"%char \/ c = "6"%char \/ c = "7"%char \/ c = "8"%char \/ c = "9"%char.
Proof.
  destruct c as [[] [] [] [] [] [] [] []]; intros H; vm_compute in H;
    try discriminate H; tauto.
Qed.

Ltac digit_cases c H :=
  destruct (is_digit_cases c H)
    as [->|[->|[->|[->|[->|[->|[->|[->|[->| ->]]]]]]]]].

Lemma digit_plain (c : ascii) :
  is_digit c = true ->
  is_space c = false /\ is_underscore c = false
  /\ Ascii.eqb c "-" = false /\ Ascii.eqb c "+" = false
  /\ ascii_lower c = c
  /\ Ascii.eqb c "i" = false /\ Ascii.eqb c "n" = false.
Proof. intros H. digit_cases c H; repeat split; reflexivity. Qed.

Lemma lstrip_digits (c : ascii) (s : string) :
  is_digit c = true -> lstrip (String c s) = String c s.
Proof.
  intros H. destruct (digit_plain c H) as (Hs & _). cbn [lstrip]. now rewrite Hs.
Qed.

Lemma rstrip_digits (D : string) : all_chars is_digit D = true -> rstrip D = D.
Proof.
  induction D as [|c D IH]; [reflexivity|]. cbn [all_chars rstrip]. intros H.
  apply andb_prop in H as [Hc HD]. rewrite (IH HD).
  destruct (digit_plain c Hc) as (Hs & _). destruct D; [now rewrite Hs | reflexivity].
Qed.

Lemma drop_underscores_digits (p : ascii) (D : string) :
  is_digit p = true -> all_chars is_digit D = true ->
  drop_underscores (Some p) D = Some D.
Proof.
  revert p. induction D as [|c D IH]; intros p Hp H.
  - cbn [drop_underscores]. destruct (digit_plain p Hp) as (_ & Hu & _). now rewrite Hu.
  - cbn [all_chars] in H. apply andb_prop in H as [Hc HD].
    cbn [drop_underscores].
    destruct (digit_plain c Hc) as (_ & Hu & _). rewrite Hu.
    destruct (digit_plain p Hp) as (_ & Hup & _). rewrite Hup. cbn [andb].
    now rewrite (IH c Hc HD).
Qed.

Lemma lower_digits (D : string) : all_chars is_digit D = true -> lower D = D.
Proof.
  induction D as [|c D IH]; [reflexivity|]. cbn [all_chars lower]. intros H.
  apply andb_prop in H as [Hc HD]. rewrite (IH HD).
  destruct (digit_plain c Hc) as (_ & _ & _ & _ & Hl & _). now rewrite Hl.
Qed.

Lemma span_digits_all (D : string) :
  all_chars is_digit D = true -> span_digits D = (D, "").
Proof.
  induction D as [|c D IH]; [reflexivity|]. cbn [all_chars span_digits]. intros H.
  apply andb_prop in H as [Hc HD]. now rewrite Hc, (IH HD).
Qed.

Lemma parse_literal_digits (c : ascii) (D : string) :
  all_chars is_digit (String c D) = true ->
  parse_literal (String c D) = Some (LNum (digits_value (String c D)) 0).
Proof.
  intros H. unfold parse_literal. rewrite (lower_digits _ H), (span_digits_all _ H).
  cbn [all_chars] in H. apply andb_prop in H as [Hc _].
  destruct (digit_plain c Hc) as (_ & _ & _ & _ & _ & Hi & Hn).
  cbn [String.eqb]. rewrite Hi, Hn. cbn [andb orb].
  rewrite append_nil_r. reflexivity.
Qed.

(** [float] of a non-empty string of digits is the float nearest to the
    integer they denote; it does not raise. *)
Lemma of_string_digits (D : string) :
  D <> "" -> all_chars is_digit D = true ->
  of_string D = Ok (of_decimal false (digits_value D) 0).
Proof.
  intros Hne H. destruct D as [|c D]; [congruence|].
  assert (Hc : is_digit c = true) by (cbn [all_chars] in H; now apply andb_prop in H).
  unfold of_string, strip. rewrite (lstrip_digits c D Hc), (rstrip_digits _ H).
  assert (Hd : drop_underscores None (String c D) = Some (String c D)).
  { cbn [drop_underscores]. destruct (digit_plain c Hc) as (_ & Hu & _). rewrite Hu.
    cbn [all_chars] in H. apply andb_prop in H as [_ HD].
    now rewrite (drop_underscores_digits c D Hc HD). }
  rewrite Hd. unfold parse_sign.
  destruct (digit_plain c Hc) as (_ & _ & Hm & Hp & _). rewrite Hm, Hp.
  now rewrite (parse_literal_digits c D H).
Qed.

Lemma get_token_digits (D : string) :
  D <> "" -> all_chars is_digit D = true ->
  exists token, Token._get_token D = Ok token.
Proof.
  intros Hne H. unfold Token._get_token. rewrite (of_string_digits D Hne H).
  eexists. reflexivity.
Qed.

End DigitsFacts.

(** ** Short links and the pipeline *)

Module PipelineLemmas.
Import Doc Base Str Re Extractor Http Twitter StrFacts ReFacts ExtractorFacts.

Lemma contains_cons (sub : string) (c : ascii) (s : string) :
  contains sub s = true -> contains sub (String c s) = true.
Proof.
  intros H. cbn [contains]. destruct (strip_prefix sub (String c s)); [reflexivity | exact H].
Qed.

Lemma contains_app (sub p q : string) : contains sub (p ++ sub ++ q) = true.
Proof.
  induction p as [|c p IH].
  - change ("" ++ sub ++ q) with (sub ++ q).
    destruct (sub ++ q) eqn:E; cbn [contains]; rewrite <- E, strip_prefix_app; reflexivity.
  - apply contains_cons, IH.
Qed.

(** Without a slash there is no match. *)
Lemma search_slash_free (s : string) :
  all_chars not_slash s = true -> search pattern s = None.
Proof.
  intros H. destruct (search pattern s) as [m|] eqn:E; [exfalso | reflexivity].
  apply search_pattern_sound in E as (pre & dom & u & es & d & post & -> & _).
  rewrite !all_chars_app in H. cbn [all_chars] in H.
  repeat (apply andb_prop in H as [? H] || apply andb_prop in H as [H ?]);
    discriminate.
Qed.

(** A short link holds no identifier. *)
Lemma search_short_link (code : string) :
  all_chars not_slash code = true ->
  search pattern ("https://t.co/" ++ code) = None.
Proof.
  intros H. change ("https://t.co/" ++ code) with ("https://" ++ "t.co" ++ "/" ++ code).
  rewrite search_https, search_skip.
  - cbn [append]. rewrite search_cons_fail by reflexivity. now apply search_slash_free.
  - intros a1 a2 E Ha2. apply no_match_before_slash.
    + assert (Hall : all_chars not_slash (a1 ++ a2) = true) by now rewrite <- E.
      rewrite all_chars_app in Hall. now apply andb_prop in Hall as [_ ?].
    + assert (L : String.length "t.co" = (String.length a1 + String.length a2)%nat)
        by (rewrite E; apply length_append).
      intros [->| ->]; simpl in L; lia.
Qed.

Lemma extract_ok_digits (url id : string) :
  Extractor._extract_tweet_id url = Ok id ->
  id <> "" /\ all_chars is_digit id = true.
Proof.
  unfold Extractor._extract_tweet_id.
  destruct (search pattern url) as [m|] eqn:S; [|discriminate].
  destruct (search_pattern_sound _ _ S)
    as (_ & _ & _ & _ & d & _ & _ & _ & _ & _ & _ & Hd & Hall & ->).
  intros [= <-]. now split.
Qed.

(** Sequencing: what [m] logs, then what the continuation logs. *)
Lemma run_bind {A B : Type} (net : network) (log : list Request)
    (m : io A) (f : A -> io B) :
  run net log (bind m f) =
    match run net log m with
    | (Ok a, log') => run net log' (f a)
    | (Raise e, log') => (Raise e, log')
    end.
Proof.
  revert log. induction m as [a|e|rq k IH]; intros log; cbn [bind run];
    [reflexivity | reflexivity | apply IH].
Qed.

Lemma run_lift {A : Type} (net : network) (log : list Request) (r : result A) :
  run net log (lift r) = (r, log).
Proof. destruct r; reflexivity. Qed.

(** [parse_share_url] against a network, step by step. *)
Lemma run_parse_share_url (net : network) (log : list Request) (share_url : string) :
  run net log (parse_share_url share_url) =
    match
      (if contains "t.co/" share_url
       then run net log (_resolve_tco_url share_url)
       else (Ok share_url, log))
    with
    | (Raise e, log') => (Raise e, log')
    | (Ok resolved, log') =>
        match Extractor._extract_tweet_id resolved with
        | Raise e => (Raise e, log')
        | Ok tweet_id => run net log' (parse_video_id tweet_id)
        end
    end.
Proof.
  unfold parse_share_url. rewrite run_bind.
  destruct (contains "t.co/" share_url).
  - destruct (run net log (_resolve_tco_url share_url)) as [[resolved|e] log'];
      [|reflexivity].
    rewrite run_bind, run_lift. unfold Twitter._extract_tweet_id.
    destruct (Extractor._extract_tweet_id resolved); reflexivity.
  - cbn [run]. rewrite run_bind, run_lift. unfold Twitter._extract_tweet_id.
    destruct (Extractor._extract_tweet_id share_url); reflexivity.
Qed.

Lemma run_resolve_answered (net : network) (log : list Request)
    (tco_url : string) (response : Response) :
  net log (tco_request tco_url) = Ok response ->
  run net log (_resolve_tco_url tco_url)
  = (Ok (PipelineSpec.resolved_url tco_url response), (log ++ [tco_request tco_url])%list).
Proof.
  intros H. rewrite ResolverClaims.run_resolve, H. unfold PipelineSpec.resolved_url.
  destruct ((status_code response =? 301) || (status_code response =? 302));
    [|reflexivity].
  destruct (truthy (headers_get (headers response) "location" "")); reflexivity.
Qed.

Lemma run_resolve_failed (net : network) (log : list Request)
    (tco_url : string) (e : exn) :
  net log (tco_request tco_url) = Raise e ->
  run net log (_resolve_tco_url tco_url) = (Raise e, (log ++ [tco_request tco_url])%list).
Proof. intros H. now rewrite ResolverClaims.run_resolve, H. Qed.

End PipelineLemmas.

(** ** More on the selection *)

Module SelectorMore.
Import Doc Base Selector SelectorSpec SelectorFacts.

(** What a returned result holds. *)
Lemma parse_json_inv (d : Document) (info : VideoInfo) :
  parse_json d = Ok info ->
  video_url info = l_video_url (select_media d)
  /\ cover_url info = l_cover_url (select_media d)
  /\ images info = l_images (select_media d)
  /\ (l_video_url (select_media d) <> "" \/ l_images (select_media d) <> []).
Proof.
  unfold parse_json. intros Hok.
  destruct (truthy (l_video_url (select_media d))) eqn:T.
  - cbn [negb andb] in Hok. injection Hok as <-.
    cbn [video_url cover_url images]. repeat split.
    left. now apply truthy_true.
  - destruct (l_images (select_media d)) eqn:I;
      cbn [negb andb truthy_list] in Hok; [discriminate|].
    injection Hok as <-. cbn [video_url cover_url images]. repeat split.
    right. discriminate.
Qed.

Lemma best_from_in (cur : selection) (later : list Variant) :
  best_from cur later = cur
  \/ exists v, In v later /\ best_from cur later = select v.
Proof.
  revert cur. induction later as [|v later IH]; intros cur; cbn [best_from].
  - now left.
  - destruct (IH (if replaces v cur then select v else cur)) as [H|(w & Hw & H)].
    + rewrite H. destruct (replaces v cur); [right; exists v; split; [now left | reflexivity] | now left].
    + right. exists w. split; [now right | exact H].
Qed.

(** A URL the loop selects is the URL of an MP4 variant of the list. *)
Lemma scan_variants_source (vs : list Variant) :
  scan_variants vs "" <> "" ->
  exists v, In v vs /\ is_mp4 v = true /\ url v = Some (scan_variants vs "").
Proof.
  rewrite scan_variants_best. unfold best_mp4.
  assert (Hf : forall v, In v (filter is_mp4 vs) -> In v vs /\ is_mp4 v = true)
    by (intros v; apply filter_In).
  destruct (filter is_mp4 vs) as [|first later]; [cbn; congruence|].
  assert (Hsel : exists w, In w (first :: later)
                   /\ best_from (select first) later = select w).
  { destruct (best_from_in (select first) later) as [H|(w & Hw & H)].
    - exists first. split; [now left | exact H].
    - exists w. split; [now right | exact H]. }
  destruct Hsel as (w & Hw & ->). cbn [selected_url select]. intros Hne.
  destruct (Hf w Hw) as [Hin Hmp]. exists w. repeat split; try assumption.
  destruct (url w); [reflexivity | cbn in Hne; congruence].
Qed.

Lemma scan_media_details_source (ms : list Media) :
  l_video_url (scan_media_details ms init) <> "" ->
  exists m, In m ms /\ is_video_type (get (type m) "") = true
    /\ l_video_url (scan_media_details ms init)
       = scan_variants (get (variants (get (video_info m) empty_video_info)) []) "".
Proof.
  induction ms as [|m ms IH]; cbn [scan_media_details].
  - cbn. congruence.
  - destruct (is_video_type (get (type m) "")) eqn:E.
    + intros _. exists m. split; [now left|]. split; [exact E | reflexivity].
    + intros H. destruct (IH H) as (m' & Hin & Hrest). exists m'. split; [now right | exact Hrest].
Qed.

Lemma tier1_source (d : Document) :
  l_video_url (tier1 d init) <> "" ->
  exists m, In m (get (mediaDetails d) []) /\ is_video_type (get (type m) "") = true
    /\ l_video_url (tier1 d init)
       = scan_variants (get (variants (get (video_info m) empty_video_info)) []) "".
Proof.
  unfold tier1. destruct (truthy_list (get (mediaDetails d) [])).
  - apply scan_media_details_source.
  - cbn. congruence.
Qed.

Lemma tier2_skip (d : Document) (st : locals) :
  l_video_url st <> "" -> tier2 d st = st.
Proof. intros H. unfold tier2. apply truthy_true in H. now rewrite H. Qed.

Lemma tier2_source (d : Document) (st : locals) :
  l_video_url st = "" -> l_video_url (tier2 d st) <> "" ->
  l_video_url (tier2 d st)
  = scan_variants (get (top_variants (get (video d) empty_top_video)) []) "".
Proof.
  intros H. unfold tier2. rewrite H. cbn [truthy negb].
  destruct (truthy_list _); cbn [l_video_url]; [reflexivity | congruence].
Qed.

Lemma tier3_skip (d : Document) (st : locals) :
  l_video_url st <> "" -> tier3 d st = st.
Proof. intros H. unfold tier3. apply truthy_true in H. now rewrite H. Qed.

(** Without a video URL the images are the photos' URLs. *)
Lemma select_media_images (d : Document) :
  l_video_url (tier2 d (tier1 d init)) = "" ->
  l_images (select_media d)
  = map mkImgInfo (photo_urls (get (mediaDetails d) [])).
Proof.
  intros Hv. unfold select_media, tier3. rewrite Hv. cbn [truthy negb andb].
  assert (Hi : l_images (tier2 d (tier1 d init)) = [])
    by now rewrite tier2_images, tier1_images.
  destruct (get (mediaDetails d) []) as [|m ms] eqn:E; cbn [truthy_list].
  - exact Hi.
  - rewrite collect_photos_spec, Hi. cbn [app].
    destruct (map mkImgInfo (photo_urls (m :: ms))); reflexivity.
Qed.

(** With no empty URL among them, [best_from] keeps the earliest variant of
    greatest bitrate. *)
Lemma best_from_first_max (later : list Variant) (w : Variant) :
  (forall v, In v (w :: later) -> get (url v) "" <> "") ->
  exists l1 w' l2,
    w :: later = (l1 ++ w' :: l2)%list
    /\ best_from (select w) later = select w'
    /\ (forall v, In v l1 -> get (bitrate v) 0 < get (bitrate w') 0)
    /\ (forall v, In v l2 -> get (bitrate v) 0 <= get (bitrate w') 0).
Proof.
  revert w. induction later as [|v later IH]; intros w Hurl.
  - exists [], w, []. repeat split; intros x [].
  - assert (Hw : truthy (get (url w) "") = true)
      by (apply truthy_true, Hurl; now left).
    cbn [best_from]. unfold replaces. cbn [select fst snd]. rewrite Hw.
    cbn [negb]. rewrite orb_false_r.
    destruct (Z.gtb_spec (get (bitrate v) 0) (get (bitrate w) 0)) as [Hgt|Hle].
    + destruct (IH v) as (l1 & w' & l2 & E & Hsel & H1 & H2).
      { intros x Hx. apply Hurl. now right. }
      exists (w :: l1), w', l2. split; [cbn [app]; now rewrite <- E|].
      split; [exact Hsel|]. split; [|exact H2].
      intros x [<-|Hx]; [|now apply H1].
      destruct l1 as [|y l1].
      * injection E as <- _. lia.
      * injection E as <- _. specialize (H1 v (or_introl eq_refl)). lia.
    + destruct (IH w) as (l1 & w' & l2 & E & Hsel & H1 & H2).
      { intros x [<-|Hx]; apply Hurl; [now left | right; now right]. }
      destruct l1 as [|y l1].
      * injection E as <- <-. exists [], w, (v :: later).
        split; [reflexivity|]. split; [exact Hsel|]. split; [intros x []|].
        intros x [<-|Hx]; [lia | now apply H2].
      * injection E as <- ->. exists (w :: v :: l1), w', l2.
        split; [reflexivity|]. split; [exact Hsel|]. split; [|exact H2].
        pose proof (H1 w (or_introl eq_refl)) as Hww.
        intros x [<-|[<-|Hx]]; [exact Hww | lia | apply H1; now right].
Qed.

End SelectorMore.

(** ** Further properties of the pipeline *)

Module PipelineFacts.
Import Doc Base Str Re Extractor Http Twitter Selector.

(** On a URL whose characters are all below U+0100, as those of an ASCII
    URL are, what the extractor returns is a non-empty string of the digits
    0 to 9 that stands in the URL after a domain, a user segment and the
    status segment. *)
Theorem extract_ok_shape (url id : string) :
  Extractor._extract_tweet_id url = Ok id ->
  id <> "" /\ all_chars is_digit id = true
  /\ exists pre dom u es post,
       url = pre ++ dom ++ "/" ++ u ++ "/status" ++ es ++ "/" ++ id ++ post
       /\ is_domain dom /\ u <> "" /\ all_chars not_slash u = true
       /\ (es = "" \/ es = "es").
Proof.
  unfold Extractor._extract_tweet_id.
  destruct (search pattern url) as [m|] eqn:S; [|discriminate].
  destruct (ExtractorFacts.search_pattern_sound _ _ S)
    as (pre & dom & u & es & d & post & -> & Hdom & Hu & Hall & Hes & Hd & Hdall & ->).
  intros [= <-]. split; [exact Hd|]. split; [exact Hdall|].
  exists pre, dom, u, es, post. now repeat split.
Qed.

Lemma extract_ok_shape_witness :
  all_chars is_digit "1234567890" = true.
Proof.
  apply (extract_ok_shape "https://twitter.com/user/status/1234567890?s=20" "1234567890").
  reflexivity.
Defined.

(** The post with one video and two MP4 variants of bitrates 832000 and
    2176000: the URL of the second is selected, with the entry's image as
    cover and no images. *)
Theorem video_priority_example :
  parse_json Examples.video_post =
    Ok (mkVideoInfo "https://video.twimg.com/hi.mp4" "https://pbs.twimg.com/thumb.jpg"
          "a video" [] (mkVideoAuthor "" "" "")).
Proof. reflexivity. Qed.

(** A document with no [mediaDetails], or an empty one, and no top-level
    [video] raises the no-media exception. *)
Theorem no_media_example (u : option User) (t : option string) :
  parse_json (mkDocument u t None None) = Raise (Exception no_media_message)
  /\ parse_json (mkDocument u t (Some []) None) = Raise (Exception no_media_message).
Proof. split; reflexivity. Qed.

(** The display name is [name] when it is not empty and [screen_name]
    otherwise: with [name] empty and [screen_name] alice it is alice. *)
Theorem author_fallback_example :
  exists info, parse_json Examples.gallery_post = Ok info
    /\ author_name (author info) = "alice".
Proof. eexists. split; reflexivity. Qed.

(** Where the cover of a result comes from: the first video or GIF entry
    when it gave the video URL, the poster of the top-level [video] when
    that gave the video URL, and the first image otherwise.  A cover that
    tier 2 sets without obtaining a video URL never reaches a result. *)
Theorem cover_provenance (json_data : Document) (info : VideoInfo) :
  parse_json json_data = Ok info ->
  let st1 := tier1 json_data init in
  (l_video_url st1 <> "" /\ video_url info = l_video_url st1
     /\ cover_url info = l_cover_url st1)
  \/ (l_video_url st1 = "" /\ video_url info <> ""
      /\ cover_url info = get (poster (get (video json_data) empty_top_video)) "")
  \/ (video_url info = ""
      /\ exists first rest, images info = first :: rest /\ cover_url info = img_url first).
Proof.
  intros Hok st1.
  assert (Hinfo : video_url info = l_video_url (select_media json_data)
                  /\ cover_url info = l_cover_url (select_media json_data)
                  /\ images info = l_images (select_media json_data)
                  /\ (l_video_url (select_media json_data) <> ""
                      \/ l_images (select_media json_data) <> [])).
  { unfold parse_json in Hok.
    destruct (truthy (l_video_url (select_media json_data))) eqn:T.
    - cbn [negb andb] in Hok. injection Hok as <-.
      cbn [video_url cover_url images]. repeat split.
      left. now apply SelectorFacts.truthy_true.
    - destruct (l_images (select_media json_data)) eqn:I;
        cbn [negb andb truthy_list] in Hok; [discriminate|].
      injection Hok as <-. cbn [video_url cover_url images]. repeat split.
      right. discriminate. }
  destruct Hinfo as (Hv & Hc & Hi & Hfound). rewrite Hv, Hc, Hi.
  unfold select_media in *. fold st1 in Hfound |- *.
  destruct (l_video_url st1) as [|c1 u1] eqn:E1.
  - right.
    destruct (l_video_url (tier2 json_data st1)) as [|c2 u2] eqn:E2.
    + right. rewrite SelectorFacts.tier3_video_url, E2 in *. split; [reflexivity|].
      destruct Hfound as [Hf|Hf]; [congruence|].
      unfold tier3 in *. rewrite E2 in *. cbn [truthy negb andb] in *.
      destruct (truthy_list (get (mediaDetails json_data) [])).
      * destruct (collect_photos _ _) as [|first rest] eqn:P; cbn in Hf |- *; [congruence|].
        now exists first, rest.
      * exfalso. apply Hf. rewrite SelectorFacts.tier2_images. apply SelectorFacts.tier1_images.
    + left. split; [reflexivity|].
      rewrite SelectorClaims.tier3_keeps_video by (rewrite E2; discriminate).
      split; [rewrite E2; discriminate|].
      unfold tier2 in *. rewrite E1 in *. cbn [truthy negb] in *.
      destruct (truthy_list _); [reflexivity|]. rewrite E1 in E2. discriminate E2.
  - left. split; [discriminate|].
    assert (H2 : tier2 json_data st1 = st1) by (unfold tier2; now rewrite E1).
    rewrite H2, SelectorClaims.tier3_keeps_video by (rewrite E1; discriminate).
    now rewrite E1.
Qed.

Lemma cover_provenance_witness :
  exists first rest,
    images (mkVideoInfo "" "https://pbs.twimg.com/1.jpg" "three photos"
              [mkImgInfo "https://pbs.twimg.com/1.jpg";
               mkImgInfo "https://pbs.twimg.com/2.jpg";
               mkImgInfo "https://pbs.twimg.com/3.jpg"]
              (mkVideoAuthor "" "alice" "")) = first :: rest
    /\ "https://pbs.twimg.com/1.jpg" = img_url first.
Proof.
  destruct (cover_provenance Examples.gallery_post _ eq_refl)
    as [(H & _)|[(_ & H & _)|(_ & H)]].
  - exfalso. now apply H.
  - exfalso. now apply H.
  - exact H.
Defined.

(** A status URL yields its identifier whatever follows the digits (a
    query string, a further path segment), as long as it is not one more
    digit. *)
Theorem extract_ignores_suffix (h dom user es D post : string) :
  all_chars not_slash h = true -> is_domain dom ->
  user <> "" -> all_chars not_slash user = true ->
  es = "" \/ es = "es" ->
  D <> "" -> all_chars is_digit D = true ->
  head_is is_digit post = false ->
  Extractor._extract_tweet_id
    ("https://" ++ h ++ dom ++ "/" ++ user ++ "/status" ++ es ++ "/" ++ D ++ post)
  = Ok D.
Proof. apply ExtractorFacts.extract_shape_suffix. Qed.

Lemma extract_ignores_suffix_witness :
  Extractor._extract_tweet_id "https://mobile.twitter.com/user/status/1234567890/photo/1?s=20"
  = Ok "1234567890".
Proof.
  apply (extract_ignores_suffix "mobile." "twitter.com" "user" "" "1234567890" "/photo/1?s=20");
    (reflexivity || discriminate || (now left)).
Defined.

(** The token step never fails on an identifier the extractor returned:
    [float] reads it as the float nearest to the integer its digits denote,
    so [parse_share_url] raises no [ValueError] of [float]. *)
Theorem extracted_id_has_token (url id : string) :
  Extractor._extract_tweet_id url = Ok id ->
  Float.of_string id = Ok (Float.of_decimal false (Float.digits_value id) 0)
  /\ exists token, _get_token id = Ok token.
Proof.
  intros H. apply PipelineLemmas.extract_ok_digits in H as [Hne Hall]. split.
  - now apply DigitsFacts.of_string_digits.
  - now apply DigitsFacts.get_token_digits.
Qed.

Lemma extracted_id_has_token_witness :
  exists token, _get_token "1234567890123456" = Ok token.
Proof.
  apply (extracted_id_has_token "https://x.com/user/status/1234567890123456").
  reflexivity.
Defined.

(** End to end on a status URL: when the URL does not hold the short-link
    marker and the endpoint answers the one request with a success status
    and a document, [parse_share_url] makes that request alone, for the
    identifier of the URL and its token, and its outcome is that of the
    selection on the document. *)
Theorem status_url_end_to_end
    (net : network) (log : list Request)
    (h dom user es D post token : string) (response : Response) (json_data : Document) :
  let share_url :=
    "https://" ++ h ++ dom ++ "/" ++ user ++ "/status" ++ es ++ "/" ++ D ++ post in
  all_chars not_slash h = true -> is_domain dom ->
  user <> "" -> all_chars not_slash user = true ->
  es = "" \/ es = "es" ->
  D <> "" -> all_chars is_digit D = true ->
  head_is is_digit post = false ->
  contains "t.co/" share_url = false ->
  _get_token D = Ok token ->
  net log (api_request D token) = Ok response ->
  is_success (status_code response) = true ->
  json response = Some json_data ->
  run net log (parse_share_url share_url)
  = (parse_json json_data, (log ++ [api_request D token])%list).
Proof.
  intros share_url Hh Hdom Hu Huall Hes HD HDall Hpost Hc Ht Hn Hs Hj.
  rewrite PipelineLemmas.run_parse_share_url, Hc.
  unfold share_url.
  rewrite ExtractorFacts.extract_shape_suffix by assumption.
  rewrite TwitterFacts.run_parse_video_id, Ht, Hn, Hs, Hj. reflexivity.
Qed.

Lemma status_url_end_to_end_witness :
  run (Examples.serving Examples.gallery_post) []
      (parse_share_url "https://x.com/user/status/99?s=20")
  = (parse_json Examples.gallery_post, [api_request "99" "31117672753895e-13"]).
Proof.
  apply (status_url_end_to_end (Examples.serving Examples.gallery_post) []
           "" "x.com" "user" "" "99" "?s=20" "31117672753895e-13"
           (mkResponse 200 [("Content-Type", "application/json")]
              (Some Examples.gallery_post)) Examples.gallery_post);
    try (vm_compute; reflexivity); try discriminate; try (now left); try (now right).
Defined.

(** End to end on a short link: when the short link is answered with a 301
    or 302 whose [Location] is a status URL, and the endpoint then answers
    with a success status and a document, [parse_share_url] makes exactly
    two requests, first for the short link and then for the identifier of
    the [Location], and its outcome is that of the selection on the
    document. *)
Theorem short_link_end_to_end
    (net : network) (log : list Request) (tco_url : string) (redirect : Response)
    (h dom user es D post token : string) (response : Response) (json_data : Document) :
  let target :=
    "https://" ++ h ++ dom ++ "/" ++ user ++ "/status" ++ es ++ "/" ++ D ++ post in
  contains "t.co/" tco_url = true ->
  net log (tco_request tco_url) = Ok redirect ->
  status_code redirect = 301 \/ status_code redirect = 302 ->
  headers_get (headers redirect) "location" "" = target ->
  all_chars not_slash h = true -> is_domain dom ->
  user <> "" -> all_chars not_slash user = true ->
  es = "" \/ es = "es" ->
  D <> "" -> all_chars is_digit D = true ->
  head_is is_digit post = false ->
  _get_token D = Ok token ->
  net (log ++ [tco_request tco_url])%list (api_request D token) = Ok response ->
  is_success (status_code response) = true ->
  json response = Some json_data ->
  run net log (parse_share_url tco_url)
  = (parse_json json_data, (log ++ [tco_request tco_url; api_request D token])%list).
Proof.
  intros target Hc Hr Hst Hloc Hh Hdom Hu Huall Hes HD HDall Hpost Ht Hn Hs Hj.
  rewrite PipelineLemmas.run_parse_share_url, Hc.
  rewrite (PipelineLemmas.run_resolve_answered net log tco_url redirect Hr).
  assert (Hres : PipelineSpec.resolved_url tco_url redirect = target).
  { unfold PipelineSpec.resolved_url.
    replace ((status_code redirect =? 301) || (status_code redirect =? 302)) with true
      by (symmetry; destruct Hst as [->| ->]; reflexivity).
    rewrite Hloc. reflexivity. }
  rewrite Hres. unfold target.
  rewrite ExtractorFacts.extract_shape_suffix by assumption.
  rewrite TwitterFacts.run_parse_video_id, Ht, Hn, Hs, Hj.
  now rewrite <- app_assoc.
Qed.

Lemma short_link_end_to_end_witness :
  run (PipelineSpec.short_link_network "https://x.com/u/status/99" Examples.video_post) []
      (parse_share_url "https://t.co/abc")
  = (parse_json Examples.video_post,
     [tco_request "https://t.co/abc"; api_request "99" "31117672753895e-13"]).
Proof.
  apply (short_link_end_to_end
           (PipelineSpec.short_link_network "https://x.com/u/status/99" Examples.video_post)
           [] "https://t.co/abc"
           (mkResponse 301 [("location", "https://x.com/u/status/99")] None)
           "" "x.com" "u" "" "99" "" "31117672753895e-13"
           (mkResponse 200 [("content-type", "application/json")] (Some Examples.video_post))
           Examples.video_post);
    try (vm_compute; reflexivity); try discriminate; try (now left); try (now right).
Defined.

(** A short link is resolved once.  When the answer is no redirect, or a
    redirect to one more short link, the extractor is given a short link,
    finds no identifier in it and raises; the endpoint is never asked. *)
Theorem short_link_resolved_once
    (net : network) (log : list Request) (code : string) (response : Response) :
  let tco_url := "https://t.co/" ++ code in
  let resolved := PipelineSpec.resolved_url tco_url response in
  all_chars not_slash code = true ->
  net log (tco_request tco_url) = Ok response ->
  (resolved = tco_url
   \/ exists code', all_chars not_slash code' = true /\ resolved = "https://t.co/" ++ code') ->
  run net log (parse_share_url tco_url)
  = (Raise (ValueError (invalid_url_message ++ resolved)), (log ++ [tco_request tco_url])%list).
Proof.
  intros tco_url resolved Hcode Hn Hres.
  rewrite PipelineLemmas.run_parse_share_url.
  replace (contains "t.co/" tco_url) with true
    by (symmetry; apply (PipelineLemmas.contains_app "t.co/" "https://" code)).
  rewrite (PipelineLemmas.run_resolve_answered net log tco_url response Hn).
  fold resolved.
  assert (Hnone : search pattern resolved = None).
  { destruct Hres as [->|(code' & Hc' & ->)];
      now apply PipelineLemmas.search_short_link. }
  now rewrite (ExtractorClaims.extract_none _ Hnone).
Qed.

Lemma short_link_resolved_once_witness :
  run Examples.not_redirecting [] (parse_share_url "https://t.co/abc")
  = (Raise (ValueError (invalid_url_message ++ "https://t.co/abc")),
     [tco_request "https://t.co/abc"]).
Proof.
  apply (short_link_resolved_once Examples.not_redirecting [] "abc"
           (mkResponse 200 [("Content-Type", "text/html")] None));
    [reflexivity | reflexivity | now left].
Defined.

(** The short-link test is a substring test: every URL that holds [t.co/]
    anywhere, a status URL included, is requested before the extractor
    sees it, and a failure of that request is the failure of the call. *)
Theorem short_link_test_is_substring
    (net : network) (log : list Request) (pre post : string) :
  let share_url := pre ++ "t.co/" ++ post in
  (exists rest,
     snd (run net log (parse_share_url share_url))
     = (log ++ tco_request share_url :: rest)%list)
  /\ (forall e, net log (tco_request share_url) = Raise e ->
      run net log (parse_share_url share_url)
      = (Raise e, (log ++ [tco_request share_url])%list)).
Proof.
  intros share_url.
  assert (Hc : contains "t.co/" share_url = true)
    by apply PipelineLemmas.contains_app.
  split.
  - rewrite PipelineLemmas.run_parse_share_url, Hc, ResolverClaims.run_resolve.
    destruct (net log (tco_request share_url)) as [response|e].
    + match goal with
      | |- context [match ?r with Ok _ => _ | Raise _ => _ end] =>
          let resolved := fresh "resolved" in
          assert (exists resolved, r = Ok resolved) as [resolved ->]
      end.
      { destruct (_ || _); [destruct (truthy _)|]; eexists; reflexivity. }
      destruct (Extractor._extract_tweet_id resolved) as [tweet_id|e].
      * rewrite TwitterFacts.run_parse_video_id.
        destruct (_get_token tweet_id) as [token|e']; cbn [snd].
        -- exists [api_request tweet_id token]. now rewrite <- app_assoc.
        -- now exists [].
      * now exists [].
    + now exists [].
  - intros e He.
    now rewrite PipelineLemmas.run_parse_share_url, Hc,
      (PipelineLemmas.run_resolve_failed net log share_url e He).
Qed.


(** A result never carries a video URL that the document does not offer as
    an MP4 variant: the URL returned is the [url] of a [video/mp4] variant,
    either of a video or GIF entry of [mediaDetails] or of the top-level
    [video]. *)
Theorem video_url_source (json_data : Document) (info : VideoInfo) :
  parse_json json_data = Ok info ->
  video_url info <> "" ->
  exists v,
    SelectorSpec.is_mp4 v = true /\ url v = Some (video_url info)
    /\ ((exists m, In m (get (mediaDetails json_data) [])
           /\ is_video_type (get (type m) "") = true
           /\ In v (get (variants (get (video_info m) empty_video_info)) []))
        \/ In v (get (top_variants (get (video json_data) empty_top_video)) [])).
Proof.
  intros Hok Hne.
  destruct (SelectorMore.parse_json_inv _ _ Hok) as (Hv & _).
  assert (Hsel : video_url info = l_video_url (tier2 json_data (tier1 json_data init)))
    by (rewrite Hv; unfold select_media; apply SelectorFacts.tier3_video_url).
  destruct (l_video_url (tier1 json_data init)) as [|c u] eqn:E1.
  - assert (Hne2 : l_video_url (tier2 json_data (tier1 json_data init)) <> "")
      by (rewrite <- Hsel; exact Hne).
    pose proof (SelectorMore.tier2_source json_data _ E1 Hne2) as Hsrc.
    assert (Hne3 : scan_variants
                     (get (top_variants (get (video json_data) empty_top_video)) []) ""
                   <> "") by (rewrite <- Hsrc; exact Hne2).
    destruct (SelectorMore.scan_variants_source _ Hne3) as (v & Hin & Hmp & Hu).
    exists v. split; [exact Hmp|]. split; [rewrite Hsel, Hsrc; exact Hu | now right].
  - assert (H1 : l_video_url (tier1 json_data init) <> "") by (rewrite E1; discriminate).
    rewrite (SelectorMore.tier2_skip json_data _ H1) in Hsel.
    destruct (SelectorMore.tier1_source json_data H1) as (m & Hm & Hty & Hs1).
    assert (Hne3 : scan_variants
                     (get (variants (get (video_info m) empty_video_info)) []) ""
                   <> "") by (rewrite <- Hs1; exact H1).
    destruct (SelectorMore.scan_variants_source _ Hne3) as (v & Hin & Hmp & Hu).
    exists v. split; [exact Hmp|]. split; [rewrite Hsel, Hs1; exact Hu|].
    left. now exists m.
Qed.

Lemma video_url_source_witness :
  exists v,
    SelectorSpec.is_mp4 v = true /\ url v = Some "https://video.twimg.com/hi.mp4"
    /\ ((exists m, In m (get (mediaDetails Examples.video_post) [])
           /\ is_video_type (get (type m) "") = true
           /\ In v (get (variants (get (video_info m) empty_video_info)) []))
        \/ In v (get (top_variants (get (video Examples.video_post) empty_top_video)) [])).
Proof.
  apply (video_url_source Examples.video_post _ eq_refl). discriminate.
Defined.

(** A post whose variants are all of another content type than
    [video/mp4] has no video for the parser: the video URL stays empty, so
    the post is a gallery when it has photos with a URL and raises the
    no-media exception when it has none, video entry or not. *)
Theorem no_mp4_no_video (json_data : Document) :
  (forall m v, In m (get (mediaDetails json_data) []) ->
     In v (get (variants (get (video_info m) empty_video_info)) []) ->
     SelectorSpec.is_mp4 v = false) ->
  (forall v, In v (get (top_variants (get (video json_data) empty_top_video)) []) ->
     SelectorSpec.is_mp4 v = false) ->
  let photos := SelectorSpec.photo_urls (get (mediaDetails json_data) []) in
  l_video_url (select_media json_data) = ""
  /\ (photos = [] -> parse_json json_data = Raise (Exception no_media_message))
  /\ (photos <> [] ->
      exists info, parse_json json_data = Ok info
        /\ video_url info = "" /\ images info = map mkImgInfo photos).
Proof.
  intros Hmd Htop photos.
  assert (H2 : l_video_url (tier2 json_data (tier1 json_data init)) = "").
  { destruct (l_video_url (tier1 json_data init)) as [|c u] eqn:E1.
    - destruct (l_video_url (tier2 json_data (tier1 json_data init))) as [|c u] eqn:E2;
        [reflexivity | exfalso].
      assert (Hne : l_video_url (tier2 json_data (tier1 json_data init)) <> "")
        by (rewrite E2; discriminate).
      pose proof (SelectorMore.tier2_source json_data _ E1 Hne) as Hsrc.
      rewrite Hsrc in Hne.
      destruct (SelectorMore.scan_variants_source _ Hne) as (v & Hin & Hmp & _).
      rewrite (Htop v Hin) in Hmp. discriminate.
    - exfalso.
      assert (H1 : l_video_url (tier1 json_data init) <> "") by (rewrite E1; discriminate).
      destruct (SelectorMore.tier1_source json_data H1) as (m & Hm & _ & Hsel).
      rewrite Hsel in H1.
      destruct (SelectorMore.scan_variants_source _ H1) as (v & Hin & Hmp & _).
      rewrite (Hmd m v Hm Hin) in Hmp. discriminate. }
  assert (Hv : l_video_url (select_media json_data) = "")
    by (unfold select_media; now rewrite SelectorFacts.tier3_video_url).
  pose proof (SelectorMore.select_media_images json_data H2) as Hi. fold photos in Hi.
  split; [exact Hv|]. split.
  - intros Hp. apply SelectorClaims.parse_json_raise; [exact Hv|].
    now rewrite Hi, Hp.
  - intros Hp. eexists. split.
    + apply SelectorClaims.parse_json_ok. right. rewrite Hi.
      destruct photos; [congruence | discriminate].
    + cbn [video_url images]. now rewrite Hv, Hi.
Qed.

Lemma no_mp4_no_video_witness :
  parse_json Examples.playlist_post = Raise (Exception no_media_message).
Proof.
  destruct (no_mp4_no_video Examples.playlist_post) as (_ & H & _).
  - intros m v [<-|[]] [].
  - intros v [<-|[]]. reflexivity.
  - apply H. reflexivity.
Defined.

(** Ties go to the earlier variant: when no MP4 variant has an empty URL,
    the loop entered with no URL selects the first of the MP4 variants of
    greatest bitrate, every MP4 variant before it having a strictly smaller
    bitrate. *)
Theorem earliest_greatest_bitrate (vs : list Variant) :
  (forall v, In v vs -> SelectorSpec.is_mp4 v = true -> get (url v) "" <> "") ->
  filter SelectorSpec.is_mp4 vs <> [] ->
  exists l1 w l2,
    filter SelectorSpec.is_mp4 vs = (l1 ++ w :: l2)%list
    /\ scan_variants vs "" = get (url w) ""
    /\ (forall v, In v l1 -> get (bitrate v) 0 < get (bitrate w) 0)
    /\ (forall v, In v l2 -> get (bitrate v) 0 <= get (bitrate w) 0).
Proof.
  intros Hurl Hne. rewrite SelectorFacts.scan_variants_best. unfold SelectorSpec.best_mp4.
  assert (Hf : forall v, In v (filter SelectorSpec.is_mp4 vs) ->
                 In v vs /\ SelectorSpec.is_mp4 v = true)
    by (intros v; apply filter_In).
  destruct (filter SelectorSpec.is_mp4 vs) as [|first later]; [congruence|].
  destruct (SelectorMore.best_from_first_max later first)
    as (l1 & w & l2 & E & Hsel & H1 & H2).
  { intros v Hv. destruct (Hf v Hv). now apply Hurl. }
  exists l1, w, l2. rewrite Hsel. now repeat split.
Qed.

Lemma earliest_greatest_bitrate_witness :
  scan_variants
    [Examples.mp4 832000 "https://video.twimg.com/a.mp4";
     Examples.hls "https://video.twimg.com/pl.m3u8";
     Examples.mp4 2176000 "https://video.twimg.com/b.mp4";
     Examples.mp4 2176000 "https://video.twimg.com/c.mp4"] ""
  = "https://video.twimg.com/b.mp4".
Proof.
  destruct (earliest_greatest_bitrate
              [Examples.mp4 832000 "https://video.twimg.com/a.mp4";
               Examples.hls "https://video.twimg.com/pl.m3u8";
               Examples.mp4 2176000 "https://video.twimg.com/b.mp4";
               Examples.mp4 2176000 "https://video.twimg.com/c.mp4"])
    as (l1 & w & l2 & _ & _ & _ & _).
  - intros v [<-|[<-|[<-|[<-|[]]]]] _; discriminate.
  - discriminate.
  - reflexivity.
Defined.

(** The first tier that obtains a video URL settles the result: once a
    video or GIF entry gave a URL, the top-level [video] is not read and
    the photos are not collected, so the result is the same whatever the
    top-level [video] is, and it has no images. *)
Theorem first_tier_settles (json_data : Document) (other : option TopVideo) :
  l_video_url (tier1 json_data init) <> "" ->
  parse_json (mkDocument (user json_data) (text json_data)
                (mediaDetails json_data) other)
  = parse_json json_data
  /\ exists info, parse_json json_data = Ok info
       /\ video_url info = l_video_url (tier1 json_data init)
       /\ cover_url info = l_cover_url (tier1 json_data init)
       /\ images info = [].
Proof.
  intros H1.
  assert (Hsel : forall d, tier1 d init = tier1 json_data init ->
            select_media d = tier1 json_data init).
  { intros d Hd. unfold select_media. rewrite Hd.
    rewrite (SelectorMore.tier2_skip d _ H1). now apply SelectorMore.tier3_skip. }
  assert (Ha : select_media json_data = tier1 json_data init) by now apply Hsel.
  assert (Hb : select_media (mkDocument (user json_data) (text json_data)
                               (mediaDetails json_data) other)
               = tier1 json_data init) by now apply Hsel.
  split.
  - unfold parse_json. rewrite Ha, Hb. reflexivity.
  - eexists. split.
    + apply SelectorClaims.parse_json_ok. left. now rewrite Ha.
    + cbn [video_url cover_url images]. rewrite Ha. repeat split.
      apply SelectorFacts.tier1_images.
Qed.

Lemma first_tier_settles_witness :
  parse_json (mkDocument None (Some "a video") (mediaDetails Examples.video_post)
                (video Examples.top_video_post))
  = parse_json Examples.video_post.
Proof.
  apply (first_tier_settles Examples.video_post (video Examples.top_video_post)).
  discriminate.
Defined.

End PipelineFacts.
